(** * First-person player: movement resolver and presence synchronizer

    A shallow embedding of [app.js]: the obstacle generator and the
    presence synchronizer of [main], and the [PlayerControls] class of the
    module [controls.js] it imports, with its per-frame [processMovement].

    JavaScript numbers are IEEE-754 binary64 values, so they are modelled by
    Rocq's primitive [float]; [undefined] is [None].  The functions of
    three.js and of the JavaScript engine that the program calls but does
    not define are either written out ([Vector3]) or collected in the
    [Host] class. *)

From Stdlib Require Import Floats ZArith Uint63 Bool.
From stdpp Require Import base option list gmap strings.
Set Warnings "-inexact-float".

Local Open Scope float_scope.

(** ** JavaScript numbers *)

Module JS.

(** A value that is a number or [undefined]. *)
Definition value := option float.

Definition isNaN (f : float) : bool := PrimFloat.is_nan f.

(** Truthiness of a number: every number but [0], [-0] and [NaN]. *)
Definition truthy_num (f : float) : bool :=
  negb (PrimFloat.is_zero f || PrimFloat.is_nan f).

(** [v || d] where [v] is a number or [undefined] and [d] a number. *)
Definition or_else (v : value) (d : float) : float :=
  match v with
  | Some f => if truthy_num f then f else d
  | None => d
  end.

(** [a !== b] for a number [a] and a number-or-undefined [b]. *)
Definition strict_ne (a : float) (b : value) : bool :=
  match b with
  | Some f => negb (a =? f)
  | None => true
  end.

(** [a !== b] on numbers. *)
Definition ne (a b : float) : bool := negb (a =? b).

(** A component that is a finite number (not [undefined], [NaN] or
    infinite). *)
Definition finite (v : value) : bool :=
  match v with
  | Some f => PrimFloat.is_finite f
  | None => false
  end.

Definition Math_PI : float := 3.141592653589793.

(** [Math.min]: [NaN] when an argument is [NaN], and [-0] is below [0]. *)
Definition Math_min (a b : float) : float :=
  if PrimFloat.is_nan a || PrimFloat.is_nan b then nan
  else if a <? b then a
  else if b <? a then b
  else if PrimFloat.is_zero a && (1 / a <? 0) then a
  else b.

(** [Math.floor]: the float is decoded, rounded down on integers and
    encoded again; a float with a non-negative exponent, an infinity, a
    zero and [NaN] are their own floor. *)
Definition Math_floor (f : float) : float :=
  match Prim2SF f with
  | S754_finite s m e =>
      if (0 <=? e)%Z then f
      else
        let d := (2 ^ (- e))%Z in
        if s then - (PrimFloat.of_uint63 (Uint63.of_Z ((Z.pos m + d - 1) / d)))
        else PrimFloat.of_uint63 (Uint63.of_Z (Z.pos m / d))
  | _ => f
  end.

End JS.

(** ** three.js vectors *)

Module Vector3.

Record t := mk { x : float; y : float; z : float }.

(** [new THREE.Vector3()] *)
Definition zero : t := mk 0 0 0.

Definition add (a b : t) : t := mk (x a + x b) (y a + y b) (z a + z b).

Definition multiplyScalar (a : t) (s : float) : t :=
  mk (x a * s) (y a * s) (z a * s).

Definition addScaledVector (a v : t) (s : float) : t :=
  mk (x a + x v * s) (y a + y v * s) (z a + z v * s).

Definition crossVectors (a b : t) : t :=
  mk (y a * z b - z a * y b) (z a * x b - x a * z b) (x a * y b - y a * x b).

Definition length (a : t) : float :=
  PrimFloat.sqrt (x a * x a + y a * y a + z a * z a).

(** [divideScalar (length () || 1)] *)
Definition normalize (a : t) : t :=
  let l := length a in
  multiplyScalar a (1 / (if JS.truthy_num l then l else 1)).

Definition set_y (a : t) (v : float) : t := mk (x a) v (z a).

Definition anyNaN (a : t) : bool :=
  JS.isNaN (x a) || JS.isNaN (y a) || JS.isNaN (z a).

End Vector3.

Module Quaternion.

Record t := mk { x : float; y : float; z : float; w : float }.

Definition toArray (q : t) : list float := [x q; y q; z q; w q].

End Quaternion.

(** ** Presence records

    A record of the shared presence store.  Every field may be missing. *)

Module Presence.

Record t := mk {
  x : JS.value;
  y : JS.value;
  z : JS.value;
  quaternion : option (list float);
  name : option string;
  color : option string
}.

(** The empty object [{}]. *)
Definition empty : t := mk None None None None None None.

Definition or {A} (a b : option A) : option A :=
  match a with Some _ => a | None => b end.

(** [{ ...base, ...over }]: the fields of [over] win. *)
Definition spread (base over : t) : t :=
  mk (or (x over) (x base)) (or (y over) (y base)) (or (z over) (z base))
     (or (quaternion over) (quaternion base))
     (or (name over) (name base)) (or (color over) (color base)).

End Presence.

(** ** The scene and the camera *)

(** A child of the scene as [processMovement] looks at it: its position,
    the two [userData] flags, and the size of its bounding box when it has
    a geometry. *)
Record Object3D := {
  position : Vector3.t;
  isBlock : bool;
  isBarrier : bool;
  geometry : option Vector3.t
}.

Record Camera := {
  cam_position : Vector3.t;
  cam_quaternion : Quaternion.t;
  cam_up : Vector3.t
}.

(** [OrbitControls]: only its [target] is touched by the program. *)
Record OrbitControls := { target : Vector3.t }.

(** The functions the program calls on its host: the engine's
    trigonometry, the values [Math.random] returns in this run (the k-th
    call returns [Math_random k]), the engine's
    [String.prototype.toLowerCase], which follows the Unicode case
    tables, and the two three.js methods whose result depends on
    three.js's matrices. *)
Class Host := {
  Math_sin : float -> float;
  Math_cos : float -> float;
  Math_random : nat -> float;
  String_toLowerCase : string -> string;
  getWorldDirection : Camera -> Vector3.t;
  orbitControls_update : Camera -> OrbitControls -> Camera * OrbitControls
}.

(** ** Movement constants *)

Definition SPEED : float := 0.08.
Definition GRAVITY : float := 0.01.
Definition JUMP_FORCE : float := 0.25.

(** ** PlayerControls *)

(** The fields of a [PlayerControls] object, followed by what it reaches
    through [this.room], [this.scene] and [document]: this client's record
    in the presence store, the updates it has pushed, the children of the
    scene, whether the pointer is locked on the canvas, and how often the
    jump sound was started. *)
Record PlayerControls := {
  velocity : Vector3.t;
  canJump : bool;
  keysPressed : gset string;
  isMobile : bool;
  jumpButtonPressed : bool;
  moveForward : float;
  moveRight : float;
  playerX : float;
  playerY : float;
  playerZ : float;
  camera : Camera;
  orbitControls : option OrbitControls;
  presence : Presence.t;
  sent : list Presence.t;
  scene : list Object3D;
  pointerLocked : bool;
  jumpSoundPlays : nat
}.

(** [room.party.updatePresence(partial)] of the presence channel, which
    the program uses but does not define: the given fields are merged
    into this client's record, as [room.party.presence] shows it from then
    on, and the update is pushed. *)
Definition updatePresence (partial : Presence.t) (c : PlayerControls) : PlayerControls :=
  {| velocity := velocity c; canJump := canJump c; keysPressed := keysPressed c;
     isMobile := isMobile c; jumpButtonPressed := jumpButtonPressed c;
     moveForward := moveForward c; moveRight := moveRight c;
     playerX := playerX c; playerY := playerY c; playerZ := playerZ c;
     camera := camera c; orbitControls := orbitControls c;
     presence := Presence.spread (presence c) partial;
     sent := sent c ++ [partial];
     scene := scene c; pointerLocked := pointerLocked c;
     jumpSoundPlays := jumpSoundPlays c |}.

(** The jump of both handlers: [velocity.y = JUMP_FORCE], [canJump = false]
    and the sound is started. *)
Definition jump (c : PlayerControls) : PlayerControls :=
  {| velocity := Vector3.set_y (velocity c) JUMP_FORCE; canJump := false;
     keysPressed := keysPressed c;
     isMobile := isMobile c; jumpButtonPressed := jumpButtonPressed c;
     moveForward := moveForward c; moveRight := moveRight c;
     playerX := playerX c; playerY := playerY c; playerZ := playerZ c;
     camera := camera c; orbitControls := orbitControls c;
     presence := presence c; sent := sent c;
     scene := scene c; pointerLocked := pointerLocked c;
     jumpSoundPlays := S (jumpSoundPlays c) |}.

Definition set_keysPressed (k : gset string) (c : PlayerControls) : PlayerControls :=
  {| velocity := velocity c; canJump := canJump c; keysPressed := k;
     isMobile := isMobile c; jumpButtonPressed := jumpButtonPressed c;
     moveForward := moveForward c; moveRight := moveRight c;
     playerX := playerX c; playerY := playerY c; playerZ := playerZ c;
     camera := camera c; orbitControls := orbitControls c;
     presence := presence c; sent := sent c;
     scene := scene c; pointerLocked := pointerLocked c;
     jumpSoundPlays := jumpSoundPlays c |}.

Definition set_jumpButtonPressed (b : bool) (c : PlayerControls) : PlayerControls :=
  {| velocity := velocity c; canJump := canJump c; keysPressed := keysPressed c;
     isMobile := isMobile c; jumpButtonPressed := b;
     moveForward := moveForward c; moveRight := moveRight c;
     playerX := playerX c; playerY := playerY c; playerZ := playerZ c;
     camera := camera c; orbitControls := orbitControls c;
     presence := presence c; sent := sent c;
     scene := scene c; pointerLocked := pointerLocked c;
     jumpSoundPlays := jumpSoundPlays c |}.

(** The lower-case form of an ASCII character. *)
Definition lower_ascii (a : Ascii.ascii) : Ascii.ascii :=
  let n := Ascii.nat_of_ascii a in
  if (65 <=? n)%nat && (n <=? 90)%nat then Ascii.ascii_of_nat (n + 32) else a.

Fixpoint lowerASCII (s : string) : string :=
  match s with
  | EmptyString => EmptyString
  | String a r => String (lower_ascii a) (lowerASCII r)
  end.

(** All characters of the string are ASCII characters. *)
Fixpoint isASCII (s : string) : bool :=
  match s with
  | EmptyString => true
  | String a r => (Ascii.nat_of_ascii a <? 128)%nat && isASCII r
  end.

Section KeyEvents.
Context `{Host}.

(** [String.prototype.toLowerCase].  On a string of ASCII characters the
    Unicode tables change the letters A to Z alone, which is written out;
    on any other string the result is the engine's. *)
Definition toLowerCase (s : string) : string :=
  if isASCII s then lowerASCII s else String_toLowerCase s.

(** The [keydown] listener of [setupEventListeners]. *)
Definition keydown (key : string) (c : PlayerControls) : PlayerControls :=
  let c1 := set_keysPressed ({[ toLowerCase key ]} ∪ keysPressed c) c in
  if bool_decide (key = " ") && canJump c1 then jump c1 else c1.

(** The [keyup] listener. *)
Definition keyup (key : string) (c : PlayerControls) : PlayerControls :=
  set_keysPressed (keysPressed c ∖ {[ toLowerCase key ]}) c.

End KeyEvents.

(** The [touchstart] listener of the jump button. *)
Definition jumpButton_touchstart (c : PlayerControls) : PlayerControls :=
  let c1 := set_jumpButtonPressed true c in
  if canJump c1 then jump c1 else c1.

(** The [touchend] listener of the jump button. *)
Definition jumpButton_touchend (c : PlayerControls) : PlayerControls :=
  set_jumpButtonPressed false c.

(** The [change] listener of the pointer-lock controls: the orientation
    alone is pushed. *)
Definition controls_change (c : PlayerControls) : PlayerControls :=
  updatePresence
    (Presence.mk None None None (Some (Quaternion.toArray (cam_quaternion (camera c))))
       None None) c.

Definition set_move (forward right : float) (c : PlayerControls) : PlayerControls :=
  {| velocity := velocity c; canJump := canJump c; keysPressed := keysPressed c;
     isMobile := isMobile c; jumpButtonPressed := jumpButtonPressed c;
     moveForward := forward; moveRight := right;
     playerX := playerX c; playerY := playerY c; playerZ := playerZ c;
     camera := camera c; orbitControls := orbitControls c;
     presence := presence c; sent := sent c;
     scene := scene c; pointerLocked := pointerLocked c;
     jumpSoundPlays := jumpSoundPlays c |}.

Definition set_camera (cam : Camera) (c : PlayerControls) : PlayerControls :=
  {| velocity := velocity c; canJump := canJump c; keysPressed := keysPressed c;
     isMobile := isMobile c; jumpButtonPressed := jumpButtonPressed c;
     moveForward := moveForward c; moveRight := moveRight c;
     playerX := playerX c; playerY := playerY c; playerZ := playerZ c;
     camera := cam; orbitControls := orbitControls c;
     presence := presence c; sent := sent c;
     scene := scene c; pointerLocked := pointerLocked c;
     jumpSoundPlays := jumpSoundPlays c |}.

Section Joystick.
Context `{Host}.

(** The [move] listener of the joystick; [force] is [data.force] and
    [radian] is [data.angle.radian]. *)
Definition joystick_move (force radian : float) (c : PlayerControls) : PlayerControls :=
  let force := JS.Math_min force 1 in
  let angle := radian - JS.Math_PI / 2 + JS.Math_PI in
  set_move (- Math_cos angle * force * SPEED) (Math_sin angle * force * SPEED) c.

(** The [end] listener of the joystick. *)
Definition joystick_end (c : PlayerControls) : PlayerControls := set_move 0 0 c.

End Joystick.

(** ** processMovement *)

Definition playerRadius : float := 0.3.
Definition playerHeight : float := 1.8.

(** What the loop over the obstacles assigns: the candidate position,
    [this.velocity.y], [this.canJump] and [standingOnBlock]. *)
Record Resolve := {
  newX : float;
  newY : float;
  newZ : float;
  vy : float;
  jumpOk : bool;
  standingOnBlock : bool
}.

(** The size of the block's bounding box, [(1, 1, 1)] without geometry. *)
Definition blockSize (block : Object3D) : Vector3.t :=
  match geometry block with
  | Some size => size
  | None => Vector3.mk 1 1 1
  end.

(** Top face of a block: [block.position.y + blockHeight / 2]. *)
Definition blockTop (block : Object3D) : float :=
  Vector3.y (position block) + Vector3.y (blockSize block) / 2.

(** The candidate is over the footprint of the block widened by the player
    radius. *)
Definition overFootprint (block : Object3D) (r : Resolve) : bool :=
  (abs (newX r - Vector3.x (position block))
     <? Vector3.x (blockSize block) / 2 + playerRadius)
  && (abs (newZ r - Vector3.z (position block))
        <? Vector3.z (blockSize block) / 2 + playerRadius).

(** The condition of the first branch of the loop body. *)
Definition standingTest (y : float) (block : Object3D) (r : Resolve) : bool :=
  (vy r <=? 0)
  && overFootprint block r
  && (abs (y - blockTop block) <? 0.2)
  && (Vector3.y (position block) <=? y).

(** The condition of the second branch. *)
Definition horizontalTest (block : Object3D) (r : Resolve) : bool :=
  overFootprint block r
  && (newY r <? blockTop block)
  && (Vector3.y (position block) - Vector3.y (blockSize block) / 2
        <? newY r + playerHeight).

(** One turn of [blockMeshes.forEach]. [campos] is [this.camera.position]
    and [y] the current height. *)
Definition collideBlock (campos movement : Vector3.t) (y : float)
    (r : Resolve) (block : Object3D) : Resolve :=
  if standingTest y block r then
    {| newX := newX r; newY := blockTop block + 0.01; newZ := newZ r;
       vy := 0; jumpOk := true; standingOnBlock := true |}
  else if horizontalTest block r then
    let xDist := abs (Vector3.x campos - Vector3.x (position block)) in
    let zDist := abs (Vector3.z campos - Vector3.z (position block)) in
    if (zDist <? xDist) && (0 <? abs (Vector3.x movement)) then
      {| newX := Vector3.x campos; newY := newY r; newZ := newZ r;
         vy := vy r; jumpOk := jumpOk r; standingOnBlock := standingOnBlock r |}
    else if 0 <? abs (Vector3.z movement) then
      {| newX := newX r; newY := newY r; newZ := Vector3.z campos;
         vy := vy r; jumpOk := jumpOk r; standingOnBlock := standingOnBlock r |}
    else r
  else r.

(** Some block of the list passes the standing test when the loop reaches
    it. *)
Fixpoint anyStanding (campos movement : Vector3.t) (y : float)
    (r : Resolve) (blocks : list Object3D) : bool :=
  match blocks with
  | [] => false
  | block :: rest =>
      standingTest y block r
      || anyStanding campos movement y (collideBlock campos movement y r block) rest
  end.

(** The avatar has landed on a block: the state the standing branch
    leaves. *)
Definition landed (r : Resolve) : Prop :=
  vy r = 0 /\ jumpOk r = true /\ standingOnBlock r = true.

(** The ground check after the loop. *)
Definition groundCheck (r : Resolve) : Resolve :=
  if (newY r <=? 0.5) && negb (standingOnBlock r) then
    {| newX := newX r; newY := 0.5; newZ := newZ r;
       vy := 0; jumpOk := true; standingOnBlock := standingOnBlock r |}
  else r.

(** [scene.children.filter(child => child.userData.isBlock ||
    child.userData.isBarrier)] *)
Definition blockMeshes (children : list Object3D) : list Object3D :=
  filter (fun child => isBlock child || isBarrier child = true) children.

Definition has (k : string) (keys : gset string) : bool := bool_decide (k ∈ keys).

(** The direction read from the keys: [z] is forward and [x] is left. *)
Definition keyDirection (keys : gset string) : Vector3.t :=
  Vector3.mk
    (if has "a" keys || has "arrowleft" keys then 1
     else if has "d" keys || has "arrowright" keys then -1 else 0)
    0
    (if has "w" keys || has "arrowup" keys then 1
     else if has "s" keys || has "arrowdown" keys then -1 else 0).

Section Resolver.
Context `{Host}.

(** The horizontal camera direction: [getWorldDirection], [y = 0],
    [normalize]. *)
Definition flatDirection (cam : Camera) : Vector3.t :=
  Vector3.normalize (Vector3.set_y (getWorldDirection cam) 0).

(** [moveDirection]: from the joystick on mobile, from the keys (then
    normalized) on desktop. *)
Definition moveDirection (c : PlayerControls) : Vector3.t :=
  if isMobile c then
    if JS.ne (moveForward c) 0 || JS.ne (moveRight c) 0 then
      let forward := flatDirection (camera c) in
      let right := Vector3.mk (- Vector3.z forward) 0 (Vector3.x forward) in
      Vector3.addScaledVector
        (Vector3.addScaledVector Vector3.zero forward (moveForward c))
        right (moveRight c)
    else Vector3.zero
  else
    let d := keyDirection (keysPressed c) in
    if 0 <? Vector3.length d then Vector3.normalize d else d.

(** [movement]: on desktop the key direction in the camera's basis at
    [SPEED], on mobile [moveDirection] as it is. *)
Definition movementOf (c : PlayerControls) : Vector3.t :=
  let d := moveDirection c in
  let cameraDirection := flatDirection (camera c) in
  let rightVector :=
    Vector3.normalize (Vector3.crossVectors (cam_up (camera c)) cameraDirection) in
  if isMobile c then d
  else
    let m1 :=
      if JS.ne (Vector3.z d) 0
      then Vector3.add Vector3.zero (Vector3.multiplyScalar cameraDirection (Vector3.z d))
      else Vector3.zero in
    let m2 :=
      if JS.ne (Vector3.x d) 0
      then Vector3.add m1 (Vector3.multiplyScalar rightVector (Vector3.x d))
      else m1 in
    if 0 <? Vector3.length m2
    then Vector3.multiplyScalar (Vector3.normalize m2) SPEED
    else m2.

(** The current height [presence.y || 0.5]. *)
Definition currentY (c : PlayerControls) : float :=
  JS.or_else (Presence.y (presence c)) 0.5.

(** The candidate before the obstacles are looked at, gravity already
    subtracted from the vertical velocity. *)
Definition candidate (c : PlayerControls) : Resolve :=
  let movement := movementOf c in
  let v := Vector3.y (velocity c) - GRAVITY in
  {| newX := Vector3.x (cam_position (camera c)) + Vector3.x movement;
     newY := currentY c + v;
     newZ := Vector3.z (cam_position (camera c)) + Vector3.z movement;
     vy := v; jumpOk := canJump c; standingOnBlock := false |}.

(** The loop over the obstacles. *)
Definition collideAll (c : PlayerControls) (blocks : list Object3D) (r : Resolve) : Resolve :=
  foldl (collideBlock (cam_position (camera c)) (movementOf c) (currentY c)) r blocks.

(** The resolved position and velocity of the frame. *)
Definition resolve (c : PlayerControls) : Resolve :=
  groundCheck (collideAll c (blockMeshes (scene c)) (candidate c)).

(** [newX !== presence.x || newY !== presence.y || newZ !== presence.z] *)
Definition positionChanged (r : Resolve) (p : Presence.t) : bool :=
  JS.strict_ne (newX r) (Presence.x p)
  || JS.strict_ne (newY r) (Presence.y p)
  || JS.strict_ne (newZ r) (Presence.z p).

(** The direction used for the orbit target: a direction with a [NaN]
    component is replaced by [(0, 0, -1)], then it is normalized. *)
Definition targetDirection (cam : Camera) : Vector3.t :=
  let d := getWorldDirection cam in
  Vector3.normalize (if Vector3.anyNaN d then Vector3.mk 0 0 (-1) else d).

(** The orbit target set after a move. *)
Definition orbitTarget (r : Resolve) (cam : Camera) : Vector3.t :=
  let d := targetDirection cam in
  Vector3.mk (newX r + Vector3.x d) (newY r + 1.2 + Vector3.y d) (newZ r + Vector3.z d).

(** The record pushed after a move. *)
Definition moveUpdate (r : Resolve) (cam : Camera) : Presence.t :=
  Presence.mk (Some (newX r)) (Some (newY r)) (Some (newZ r))
    (Some (Quaternion.toArray (cam_quaternion cam))) None None.

(** The camera after [camera.position.set(newX, newY + 1.2, newZ)]. *)
Definition movedCamera (r : Resolve) (cam : Camera) : Camera :=
  {| cam_position := Vector3.mk (newX r) (newY r + 1.2) (newZ r);
     cam_quaternion := cam_quaternion cam;
     cam_up := cam_up cam |}.

(** The body of [processMovement] behind its first line. *)
Definition moveAndBroadcast (c : PlayerControls) : PlayerControls :=
  let r := resolve c in
  let changed := positionChanged r (presence c) in
  let cam1 :=
    if changed then movedCamera r (camera c) else camera c in
  let orbit1 :=
    match orbitControls c with
    | Some o => if changed && isMobile c then Some {| target := orbitTarget r cam1 |} else Some o
    | None => None
    end in
  let '(cam2, orbit2) :=
    match orbit1 with
    | Some o =>
        if isMobile c
        then let '(cm, o') := orbitControls_update cam1 o in (cm, Some o')
        else (cam1, Some o)
    | None => (cam1, None)
    end in
  {| velocity := Vector3.set_y (velocity c) (vy r); canJump := jumpOk r;
     keysPressed := keysPressed c;
     isMobile := isMobile c; jumpButtonPressed := jumpButtonPressed c;
     moveForward := moveForward c; moveRight := moveRight c;
     playerX := playerX c; playerY := playerY c; playerZ := playerZ c;
     camera := cam2; orbitControls := orbit2;
     presence := if changed then Presence.spread (presence c) (moveUpdate r cam1)
                 else presence c;
     sent := if changed then sent c ++ [moveUpdate r cam1] else sent c;
     scene := scene c; pointerLocked := pointerLocked c;
     jumpSoundPlays := jumpSoundPlays c |}.

(** The frame is processed: the device is mobile or the pointer is locked
    on the canvas. *)
Definition runs (c : PlayerControls) : bool := isMobile c || pointerLocked c.

(** [processMovement]: on desktop nothing is done while the pointer is not
    locked on the canvas. *)
Definition processMovement (c : PlayerControls) : PlayerControls :=
  if negb (isMobile c) && negb (pointerLocked c) then c
  else moveAndBroadcast c.

(** [update] *)
Definition update (c : PlayerControls) : PlayerControls := processMovement c.

End Resolver.

(** ** The obstacle generator *)

(** A mesh added by [createBarriers]: the dimensions given to
    [BoxGeometry], the position and the two [userData] flags. *)
Record Mesh := {
  dims : Vector3.t;
  mesh_position : Vector3.t;
  userData_isBarrier : bool;
  userData_isBlock : bool
}.

Module MathRandom.

Record t := new { seed : float }.

Section Random.
Context `{Host}.

(** [random()]: [Math.sin(this.seed++) * 10000], its fractional part. *)
Definition random (rng : t) : float * t :=
  let x := Math_sin (seed rng) * 10000 in
  (x - JS.Math_floor x, new (seed rng + 1)).

End Random.
End MathRandom.

Section Generator.
Context `{Host}.

(** One turn of the first loop. *)
Definition barrier (rng : MathRandom.t) : Mesh * MathRandom.t :=
  let '(r1, rng) := MathRandom.random rng in
  let width := 1 + r1 * 3 in
  let '(r2, rng) := MathRandom.random rng in
  let height := 1 + r2 * 3 in
  let '(r3, rng) := MathRandom.random rng in
  let depth := 1 + r3 * 3 in
  let '(r4, rng) := MathRandom.random rng in
  let angle := r4 * JS.Math_PI * 2 in
  let '(r5, rng) := MathRandom.random rng in
  let distance := 5 + r5 * 15 in
  ({| dims := Vector3.mk width height depth;
      mesh_position :=
        Vector3.mk (Math_cos angle * distance) (height / 2) (Math_sin angle * distance);
      userData_isBarrier := true; userData_isBlock := false |}, rng).

(** One turn of the second loop. *)
Definition platform (rng : MathRandom.t) : Mesh * MathRandom.t :=
  let '(r1, rng) := MathRandom.random rng in
  let angle := r1 * JS.Math_PI * 2 in
  let '(r2, rng) := MathRandom.random rng in
  let distance := 5 + r2 * 15 in
  let '(r3, rng) := MathRandom.random rng in
  ({| dims := Vector3.mk 2 0.5 2;
      mesh_position :=
        Vector3.mk (Math_cos angle * distance) (1 + r3 * 3) (Math_sin angle * distance);
      userData_isBarrier := false; userData_isBlock := true |}, rng).

(** [for (let i = 0; i < n; i++) { ...; scene.add(mesh) }] *)
Fixpoint addMeshes (make : MathRandom.t -> Mesh * MathRandom.t) (n : nat)
    (rng : MathRandom.t) (children : list Mesh) : list Mesh * MathRandom.t :=
  match n with
  | O => (children, rng)
  | S n' =>
      let '(m, rng') := make rng in
      addMeshes make n' rng' (children ++ [m])
  end.

(** [createBarriers] with the seed as an argument. *)
Definition createBarriersFrom (barrierSeed : float) (children : list Mesh) : list Mesh :=
  let rng := MathRandom.new barrierSeed in
  let '(children, rng) := addMeshes barrier 15 rng children in
  let '(children, rng) := addMeshes platform 10 rng children in
  children.

(** [createBarriers]: the seed is the constant [12345]. *)
Definition createBarriers (children : list Mesh) : list Mesh :=
  createBarriersFrom 12345 children.

(** The starting position chosen by the constructor of [PlayerControls]
    from the k-th and the next value of [Math.random]. *)
Definition startPosition (k : nat) : Vector3.t :=
  Vector3.mk (Math_random k * 10 - 5) 0.5 (Math_random (S k) * 10 - 5).

End Generator.

(** ** The presence synchronizer *)

(** [safePresence]: the record with the defaults of [updatePlayerObject]
    for [x], [y], [color], [name] and [quaternion]; there is none for [z]. *)
Record SafePresence := {
  safe_x : float;
  safe_y : float;
  safe_z : JS.value;
  safe_color : string;
  safe_name : string;
  safe_quaternion : list float
}.

Definition safePresence (p : Presence.t) : SafePresence :=
  {| safe_x := default 0 (Presence.x p);
     safe_y := default 0.5 (Presence.y p);
     safe_z := Presence.z p;
     safe_color := default "#FFFFFF" (Presence.color p);
     safe_name := default "Unknown" (Presence.name p);
     safe_quaternion := default [0; 0; 0; 1] (Presence.quaternion p) |}.

(** The name sprite of an avatar: the text drawn on its canvas,
    [userData.currentName] and its orientation. *)
Record NameTag := {
  drawn : string;
  currentName : option string;
  tag_quaternion : Quaternion.t
}.

(** A player group of the scene.  The group of the own player has neither
    body nor name tag.  The components of the transform are those left by
    [position.set] and read by [quaternion.fromArray]. *)
Record Avatar := {
  bodyColor : option string;
  nameTag : option NameTag;
  av_position : JS.value * JS.value * JS.value;
  av_quaternion : JS.value * JS.value * JS.value * JS.value
}.

Inductive SceneOp :=
| SceneAdd (id : string)
| SceneRemove (id : string).

#[global] Instance SceneOp_eq_dec : EqDecision SceneOp.
Proof. solve_decision. Defined.

(** [playerObjects] and the calls of [scene.add] and [scene.remove] on
    player groups, oldest first. *)
Record Players := {
  playerObjects : gmap string Avatar;
  sceneOps : list SceneOp
}.

Definition identity : JS.value * JS.value * JS.value * JS.value :=
  (Some 0, Some 0, Some 0, Some 1).

(** The group built for another player. *)
Definition newAvatar (sp : SafePresence) : Avatar :=
  {| bodyColor := Some (safe_color sp);
     nameTag := Some {| drawn := safe_name sp; currentName := None;
                        tag_quaternion := Quaternion.mk 0 0 0 1 |};
     av_position := (Some 0, Some 0, Some 0);
     av_quaternion := identity |}.

(** The empty group built for the own player. *)
Definition ownGroup : Avatar :=
  {| bodyColor := None; nameTag := None;
     av_position := (Some 0, Some 0, Some 0); av_quaternion := identity |}.

(** The name is drawn again when [userData.currentName] is missing, empty
    or another name. *)
Definition redrawName (name : string) (t : NameTag) : NameTag :=
  let stale :=
    match currentName t with
    | Some n => bool_decide (n = "") || bool_decide (n ≠ name)
    | None => true
    end in
  if stale
  then {| drawn := name; currentName := Some name; tag_quaternion := tag_quaternion t |}
  else t.

(** [quaternion.fromArray(array)] *)
Definition fromArray (a : list float) : JS.value * JS.value * JS.value * JS.value :=
  (a !! 0%nat, a !! 1%nat, a !! 2%nat, a !! 3%nat).

(** [position.set(x, y, z)] of three.js: [x] and [y] are stored, and so
    is [z] unless it is [undefined], in which case the [z] the position
    had is kept. *)
Definition positionSet (x y : float) (z : JS.value)
    (old : JS.value * JS.value * JS.value) : JS.value * JS.value * JS.value :=
  (Some x, Some y, match z with Some _ => z | None => old.2 end).

(** The last part of [updatePlayerObject]: name, position, rotation and
    the name tag turned to the camera. *)
Definition applyPresence (own : bool) (camq : Quaternion.t) (sp : SafePresence)
    (obj : Avatar) : Avatar :=
  let tag1 := if own then nameTag obj else redrawName (safe_name sp) <$> nameTag obj in
  {| bodyColor := bodyColor obj;
     nameTag :=
       (fun t => {| drawn := drawn t; currentName := currentName t;
                    tag_quaternion := camq |}) <$> tag1;
     av_position := positionSet (safe_x sp) (safe_y sp) (safe_z sp) (av_position obj);
     av_quaternion := fromArray (safe_quaternion sp) |}.

(** [updatePlayerObject({ id, presence })] for a presence that is an
    object; [self] is [room.party.client.id] and [camq] the orientation of
    the camera. *)
Definition updatePlayerObject (self : string) (camq : Quaternion.t)
    (id : string) (p : Presence.t) (st : Players) : Players :=
  if bool_decide (id = "") then st
  else
    let sp := safePresence p in
    let own := bool_decide (id = self) in
    match playerObjects st !! id with
    | Some obj =>
        {| playerObjects := <[id := applyPresence own camq sp obj]> (playerObjects st);
           sceneOps := sceneOps st |}
    | None =>
        let obj := if own then ownGroup else newAvatar sp in
        {| playerObjects := <[id := applyPresence own camq sp obj]> (playerObjects st);
           sceneOps := sceneOps st ++ [SceneAdd id] |}
    end.

Definition removePlayerObject (connectionId : string) (st : Players) : Players :=
  match playerObjects st !! connectionId with
  | Some _ =>
      {| playerObjects := delete connectionId (playerObjects st);
         sceneOps := sceneOps st ++ [SceneRemove connectionId] |}
  | None => st
  end.

(** The body of the first loop of the callback, for an id whose record is
    an object. *)
Definition updateStep (self : string) (camq : Quaternion.t)
    (st : Players) (entry : string * Presence.t) : Players :=
  let '(clientId, p) := entry in
  if bool_decide (clientId ≠ self)
  then updatePlayerObject self camq clientId p st else st.

(** The body of the second loop, over the entries of [playerObjects]. *)
Definition removeStep (self : string) (snapshot : gmap string Presence.t)
    (st : Players) (entry : string * Avatar) : Players :=
  let '(connectionId, _) := entry in
  if bool_decide (connectionId ≠ self) && bool_decide (snapshot !! connectionId = None)
  then removePlayerObject connectionId st else st.

(** The callback given to [subscribePresence].  The snapshot maps the ids
    whose record is an object; an id whose value is [null] or [undefined]
    fails both tests of the callback and is left out of the map, like an
    id that is no key.  The ids are visited in the order of the map, which
    is not that of the engine; no id is visited twice. *)
Definition onPresence (self : string) (camq : Quaternion.t)
    (snapshot : gmap string Presence.t) (st : Players) : Players :=
  let st1 := foldl (updateStep self camq) st (map_to_list snapshot) in
  foldl (removeStep self snapshot) st1 (map_to_list (playerObjects st1)).

(** The callback run on a sequence of snapshots. *)
Definition onPresences (self : string) (camq : Quaternion.t)
    (snapshots : list (gmap string Presence.t)) (st : Players) : Players :=
  foldl (fun st snapshot => onPresence self camq snapshot st) st snapshots.

Definition noPlayers : Players := {| playerObjects := ∅; sceneOps := [] |}.

(** How often an operation occurs in a list of scene operations. *)
Definition count_op (o : SceneOp) (ops : list SceneOp) : nat :=
  length (filter (fun o' => o' = o) ops).



(** All seven components of the transform of an avatar are finite
    numbers. *)
Definition finiteTransform (obj : Avatar) : bool :=
  let '(px, py, pz) := av_position obj in
  let '(qx, qy, qz, qw) := av_quaternion obj in
  JS.finite px && JS.finite py && JS.finite pz
  && JS.finite qx && JS.finite qy && JS.finite qz && JS.finite qw.

(** ** A host and states for running the program *)

(** [Camera.getWorldDirection] of three.js for a camera without parent and
    with unit scale: minus the third column of the rotation matrix of the
    quaternion, normalized. *)
Definition threeDirection (cam : Camera) : Vector3.t :=
  let q := cam_quaternion cam in
  let x2 := Quaternion.x q + Quaternion.x q in
  let y2 := Quaternion.y q + Quaternion.y q in
  let z2 := Quaternion.z q + Quaternion.z q in
  let xx := Quaternion.x q * x2 in
  let xz := Quaternion.x q * z2 in
  let yy := Quaternion.y q * y2 in
  let yz := Quaternion.y q * z2 in
  let wx := Quaternion.w q * x2 in
  let wy := Quaternion.w q * y2 in
  Vector3.normalize
    (Vector3.mk (- ((xz + wy) * 1)) (- ((yz - wx) * 1)) (- ((1 - (xx + yy)) * 1))).

(** Sine and cosine by the first eight terms of their series. *)
Definition sinSeries (a : float) : float :=
  let s := a * a in
  a * (1 - s / 6 * (1 - s / 20 * (1 - s / 42 * (1 - s / 72 * (1 - s / 110
         * (1 - s / 156 * (1 - s / 210))))))).

Definition cosSeries (a : float) : float :=
  let s := a * a in
  1 - s / 2 * (1 - s / 12 * (1 - s / 30 * (1 - s / 56 * (1 - s / 90
        * (1 - s / 132 * (1 - s / 182)))))).

(** A host for examples: sine and cosine by their series, [Math.random]
    returning [r] every time, orbit controls that leave camera and target
    alone, and a [toLowerCase] that is only asked for strings with other
    than ASCII characters, which no example has. *)
Definition exampleHost (r : float) : Host :=
  {| Math_sin := sinSeries;
     Math_cos := cosSeries;
     Math_random := fun _ => r;
     String_toLowerCase := fun s => s;
     getWorldDirection := threeDirection;
     orbitControls_update := fun cam o => (cam, o) |}.

(** A new perspective camera at [p]. *)
Definition cameraAt (p : Vector3.t) : Camera :=
  {| cam_position := p; cam_quaternion := Quaternion.mk 0 0 0 1;
     cam_up := Vector3.mk 0 1 0 |}.

(** A camera at [p] with orientation [q]. *)
Definition cameraTurned (q : Quaternion.t) (p : Vector3.t) : Camera :=
  {| cam_position := p; cam_quaternion := q; cam_up := Vector3.mk 0 1 0 |}.

(** A desktop player standing at [(px, py, pz)] in the given scene: no key
    held, no velocity, the camera at eye height and looking along [-z]. *)
Definition desktopAt (px py pz : float) (locked : bool) (children : list Object3D) : PlayerControls :=
  {| velocity := Vector3.zero; canJump := true; keysPressed := ∅;
     isMobile := false; jumpButtonPressed := false;
     moveForward := 0; moveRight := 0;
     playerX := px; playerY := 0.5; playerZ := pz;
     camera := cameraAt (Vector3.mk px (py + 1.2) pz);
     orbitControls := None;
     presence := Presence.mk (Some px) (Some py) (Some pz) (Some [0; 0; 0; 1])
                   (Some "Player1") (Some "hsl(0, 70%, 50%)");
     sent := []; scene := children; pointerLocked := locked;
     jumpSoundPlays := 0 |}.

(** The same player on a mobile device, the joystick at rest. *)
Definition mobileAt (px py pz : float) (children : list Object3D) : PlayerControls :=
  {| velocity := Vector3.zero; canJump := true; keysPressed := ∅;
     isMobile := true; jumpButtonPressed := false;
     moveForward := 0; moveRight := 0;
     playerX := px; playerY := 0.5; playerZ := pz;
     camera := cameraAt (Vector3.mk px (py + 1.2) pz);
     orbitControls := Some {| target := Vector3.mk px (py + 1.2) (pz - 1) |};
     presence := Presence.mk (Some px) (Some py) (Some pz) (Some [0; 0; 0; 1])
                   (Some "Player1") (Some "hsl(0, 70%, 50%)");
     sent := []; scene := children; pointerLocked := false;
     jumpSoundPlays := 0 |}.

(** A box of the scene. *)
Definition box (cx cy cz w h d : float) (barrier : bool) : Object3D :=
  {| position := Vector3.mk cx cy cz; isBlock := negb barrier; isBarrier := barrier;
     geometry := Some (Vector3.mk w h d) |}.

(** ** Notions for the further properties *)

Definition set_scene (children : list Object3D) (c : PlayerControls) : PlayerControls :=
  {| velocity := velocity c; canJump := canJump c; keysPressed := keysPressed c;
     isMobile := isMobile c; jumpButtonPressed := jumpButtonPressed c;
     moveForward := moveForward c; moveRight := moveRight c;
     playerX := playerX c; playerY := playerY c; playerZ := playerZ c;
     camera := camera c; orbitControls := orbitControls c;
     presence := presence c; sent := sent c;
     scene := children; pointerLocked := pointerLocked c;
     jumpSoundPlays := jumpSoundPlays c |}.

Definition set_presence (p : Presence.t) (c : PlayerControls) : PlayerControls :=
  {| velocity := velocity c; canJump := canJump c; keysPressed := keysPressed c;
     isMobile := isMobile c; jumpButtonPressed := jumpButtonPressed c;
     moveForward := moveForward c; moveRight := moveRight c;
     playerX := playerX c; playerY := playerY c; playerZ := playerZ c;
     camera := camera c; orbitControls := orbitControls c;
     presence := p; sent := sent c;
     scene := scene c; pointerLocked := pointerLocked c;
     jumpSoundPlays := jumpSoundPlays c |}.

(** A child of the scene that is no obstacle, such as the ground. *)
Definition scenery (cx cy cz : float) : Object3D :=
  {| position := Vector3.mk cx cy cz; isBlock := false; isBarrier := false;
     geometry := None |}.

(** The keys [processMovement] looks for. *)
Definition movementKeys : gset string :=
  {[ "w"; "arrowup"; "s"; "arrowdown"; "a"; "arrowleft"; "d"; "arrowright" ]}.

(** The player gives no horizontal input: on mobile the joystick values
    are [0], on desktop none of the movement keys is held. *)
Definition noInput (c : PlayerControls) : Prop :=
  if isMobile c
  then JS.ne (moveForward c) 0 = false /\ JS.ne (moveRight c) 0 = false
  else keysPressed c ## movementKeys.

(** Height, vertical velocity and jump flag of the player. *)
Definition vertical (c : PlayerControls) : float * float * bool :=
  (currentY c, Vector3.y (velocity c), canJump c).

(** One frame of a player over open ground, on height, vertical velocity
    and jump flag. *)
Definition fallStep (s : float * float * bool) : float * float * bool :=
  let '(y, v, j) := s in
  let v' := v - GRAVITY in
  let y' := y + v' in
  if y' <=? 0.5 then (0.5, 0, true) else (JS.or_else (Some y') 0.5, v', j).

Section Frames.
Context `{Host}.

(** [n] turns of the animation loop, which calls [update] once a frame. *)
Definition frames (n : nat) (c : PlayerControls) : PlayerControls :=
  Nat.iter n update c.

End Frames.

(** What the loop over the obstacles may have made of a value [r0] it
    started from: each horizontal coordinate is the one of [r0] or the
    camera's, the vertical velocity is the one of [r0] or [0]. *)
Definition reachable (campos : Vector3.t) (r0 r : Resolve) : Prop :=
  (newX r = newX r0 \/ newX r = Vector3.x campos)
  /\ (newZ r = newZ r0 \/ newZ r = Vector3.z campos)
  /\ (vy r = vy r0 \/ vy r = 0).

(** The name tag of an avatar shows [name] and faces along [camq]. *)
Definition tagShows (name : string) (camq : Quaternion.t) (obj : Avatar) : Prop :=
  nameTag obj = Some {| drawn := name; currentName := Some name; tag_quaternion := camq |}.

(** Every avatar of [playerObjects] has a name tag whose recorded name is
    the drawn one, and neither the own id nor the empty id has an avatar. *)
Definition tagsConsistent (self : string) (st : Players) : Prop :=
  playerObjects st !! self = None
  /\ playerObjects st !! "" = None
  /\ forall k obj, playerObjects st !! k = Some obj ->
       exists t, nameTag obj = Some t
         /\ forall n, currentName t = Some n -> drawn t = n.

(** * Properties *)

(** ** Numbers *)

Lemma SFeqb_true_cases (a b : spec_float) :
  SFeqb a b = true ->
  a = b \/ (exists s t, a = S754_zero s /\ b = S754_zero t).
Proof.
  unfold SFeqb, SFcompare.
  destruct a as [s|s| |s m e], b as [t|t| |t n e'];
    try (destruct s; discriminate); try (destruct t; discriminate);
    try discriminate.
  - intros _. right. eauto.
  - destruct s, t; try discriminate; intros _; left; reflexivity.
  - destruct s, t; try discriminate;
      destruct (Z.compare_spec e e') as [-> | |]; try discriminate;
      change (Pos.compare_cont Eq m n) with (Pos.compare m n);
      destruct (Pos.compare_spec m n) as [-> | |]; simpl; try discriminate;
      intros _; left; reflexivity.
Qed.

(** Two numbers equal under [===] are the same float or are both zero. *)
Lemma eqb_true_cases (a b : float) :
  (a =? b) = true ->
  a = b \/ (PrimFloat.is_zero a = true /\ PrimFloat.is_zero b = true).
Proof.
  intros E. rewrite FloatAxioms.eqb_spec in E.
  destruct (SFeqb_true_cases _ _ E) as [Eq | (s & t & Ea & Eb)].
  - left. now apply Prim2SF_inj.
  - right. unfold PrimFloat.is_zero. rewrite !FloatAxioms.eqb_spec, Ea, Eb.
    split; reflexivity.
Qed.

Lemma eqb_refl_not_nan (a : float) : PrimFloat.is_nan a = false -> (a =? a) = true.
Proof. unfold PrimFloat.is_nan. now destruct (a =? a). Qed.

Lemma eqb_half (v : float) : (0.5 =? v) = true -> v = 0.5.
Proof.
  intros E. destruct (eqb_true_cases _ _ E) as [<- | [Z _]]; [reflexivity|].
  vm_compute in Z. discriminate.
Qed.

(** ** The loop over the obstacles *)

Section LoopFacts.
Variables (campos movement : Vector3.t) (y : float).

Local Abbreviation step := (collideBlock campos movement y).

Lemma collideBlock_standing (r : Resolve) (b : Object3D) :
  standingTest y b r = true ->
  step r b =
    {| newX := newX r; newY := blockTop b + 0.01; newZ := newZ r;
       vy := 0; jumpOk := true; standingOnBlock := true |}.
Proof. intros T. unfold collideBlock. now rewrite T. Qed.

(** A block that fails the standing test leaves height, velocity and both
    flags alone. *)
Lemma collideBlock_not_standing (r : Resolve) (b : Object3D) :
  standingTest y b r = false ->
  newY (step r b) = newY r /\ vy (step r b) = vy r
  /\ jumpOk (step r b) = jumpOk r
  /\ standingOnBlock (step r b) = standingOnBlock r.
Proof.
  intros T. unfold collideBlock. rewrite T.
  destruct (horizontalTest b r); [|tauto].
  destruct (_ && _); [simpl; tauto|].
  destruct (0 <? _); simpl; tauto.
Qed.

Lemma collideBlock_landed (r : Resolve) (b : Object3D) :
  landed r -> landed (step r b).
Proof.
  intros L. destruct (standingTest y b r) eqn:T.
  - rewrite collideBlock_standing by assumption. repeat split.
  - unfold landed. destruct (collideBlock_not_standing r b T) as (_ & -> & -> & ->).
    exact L.
Qed.

Lemma foldl_landed (blocks : list Object3D) (r : Resolve) :
  landed r -> landed (foldl step r blocks).
Proof.
  revert r. induction blocks as [|b blocks IH]; intros r L; simpl; [exact L|].
  apply IH, collideBlock_landed, L.
Qed.

(** Without a standing block the loop leaves height, velocity and both
    flags alone. *)
Lemma foldl_not_standing (blocks : list Object3D) (r : Resolve) :
  anyStanding campos movement y r blocks = false ->
  newY (foldl step r blocks) = newY r /\ vy (foldl step r blocks) = vy r
  /\ jumpOk (foldl step r blocks) = jumpOk r
  /\ standingOnBlock (foldl step r blocks) = standingOnBlock r.
Proof.
  revert r. induction blocks as [|b blocks IH]; intros r A; simpl in *; [tauto|].
  apply orb_false_elim in A as [T A].
  destruct (IH _ A) as (-> & -> & -> & ->).
  now apply collideBlock_not_standing.
Qed.

(** [standingOnBlock] after the loop says whether some block passed the
    standing test. *)
Lemma foldl_standingOnBlock (blocks : list Object3D) (r : Resolve) :
  standingOnBlock r = false ->
  standingOnBlock (foldl step r blocks) = anyStanding campos movement y r blocks.
Proof.
  revert r. induction blocks as [|b blocks IH]; intros r S; simpl; [exact S|].
  destruct (standingTest y b r) eqn:T; simpl.
  - apply foldl_landed. rewrite collideBlock_standing by assumption. repeat split.
  - apply IH. destruct (collideBlock_not_standing r b T) as (_ & _ & _ & ->). exact S.
Qed.

End LoopFacts.

(** ** The frame *)

Section FrameFacts.
Context `{Host}.

Lemma processMovement_runs (c : PlayerControls) :
  runs c = true -> processMovement c = moveAndBroadcast c.
Proof.
  unfold runs, processMovement. destruct (isMobile c), (pointerLocked c); easy.
Qed.

Lemma moveAndBroadcast_velocity (c : PlayerControls) :
  velocity (moveAndBroadcast c) = Vector3.set_y (velocity c) (vy (resolve c)).
Proof.
  unfold moveAndBroadcast. destruct (match _ with Some _ => _ | None => _ end);
    reflexivity.
Qed.

Lemma moveAndBroadcast_canJump (c : PlayerControls) :
  canJump (moveAndBroadcast c) = jumpOk (resolve c).
Proof.
  unfold moveAndBroadcast. destruct (match _ with Some _ => _ | None => _ end);
    reflexivity.
Qed.

Lemma moveAndBroadcast_sent (c : PlayerControls) :
  sent (moveAndBroadcast c) =
    if positionChanged (resolve c) (presence c)
    then sent c ++ [moveUpdate (resolve c) (camera c)]
    else sent c.
Proof.
  unfold moveAndBroadcast. destruct (match _ with Some _ => _ | None => _ end).
  simpl. destruct (positionChanged _ _); reflexivity.
Qed.

Lemma moveAndBroadcast_presence (c : PlayerControls) :
  presence (moveAndBroadcast c) =
    if positionChanged (resolve c) (presence c)
    then Presence.spread (presence c) (moveUpdate (resolve c) (camera c))
    else presence c.
Proof.
  unfold moveAndBroadcast. destruct (match _ with Some _ => _ | None => _ end).
  simpl. destruct (positionChanged _ _); reflexivity.
Qed.

(** After a processed frame the stored height is the resolved height, up to
    the sign of a zero. *)
Lemma moveAndBroadcast_stored_y (c : PlayerControls) :
  exists v, Presence.y (presence (moveAndBroadcast c)) = Some v
    /\ (v = newY (resolve c)
        \/ (PrimFloat.is_zero v = true /\ PrimFloat.is_zero (newY (resolve c)) = true)).
Proof.
  rewrite moveAndBroadcast_presence.
  destruct (positionChanged _ _) eqn:P.
  - exists (newY (resolve c)). split; [reflexivity | now left].
  - unfold positionChanged in P.
    apply orb_false_elim in P as [P _]. apply orb_false_elim in P as [_ P].
    unfold JS.strict_ne in P. destruct (Presence.y (presence c)) as [v|]; [|discriminate].
    exists v. split; [reflexivity|].
    apply negb_false_iff in P. destruct (eqb_true_cases _ _ P) as [->|[? ?]]; auto.
Qed.

End FrameFacts.

(** ** The pointer-lock gate *)

(** C10: on desktop, while the pointer is not locked on the canvas,
    [processMovement] returns the state it was given: position, vertical
    velocity, the jump flag and the list of pushed presence updates are
    all unchanged, so gravity is not integrated. *)
Theorem processMovement_pointer_released `{Host} (c : PlayerControls) :
  isMobile c = false -> pointerLocked c = false -> processMovement c = c.
Proof. intros M L. unfold processMovement. now rewrite M, L. Qed.

Lemma processMovement_pointer_released_witness :
  let c := @keydown (exampleHost 0.5) " " (desktopAt 0 0.5 0 false []) in
  isMobile c = false /\ pointerLocked c = false
  /\ @processMovement (exampleHost 0.5) c = c.
Proof.
  intros c. split; [reflexivity|]. split; [reflexivity|].
  apply (@processMovement_pointer_released (exampleHost 0.5) c); reflexivity.
Defined.

(** ** Jumping *)

(** C4 (as amended): a jump request (the space key going down, or a touch
    on the jump button) while [canJump] is set sets the vertical velocity
    to [JUMP_FORCE] and clears [canJump]; while [canJump] is cleared it
    changes nothing but the record of the input itself (the key joins the
    set of held keys, the button is marked pressed): velocity, jump flag,
    camera, presence, pushed updates and sound count stay as they are. *)
Theorem jump_request `{Host} (c : PlayerControls) :
  (canJump c = true ->
     Vector3.y (velocity (keydown " " c)) = JUMP_FORCE
     /\ canJump (keydown " " c) = false
     /\ Vector3.y (velocity (jumpButton_touchstart c)) = JUMP_FORCE
     /\ canJump (jumpButton_touchstart c) = false)
  /\ (canJump c = false ->
     keydown " " c = set_keysPressed ({[ " " ]} ∪ keysPressed c) c
     /\ jumpButton_touchstart c = set_jumpButtonPressed true c).
Proof.
  unfold keydown, jumpButton_touchstart. simpl.
  split; intros ->; simpl; repeat split.
Qed.

Lemma jump_request_witness :
  let c := desktopAt 0 0.5 0 true [] in
  canJump c = true /\ canJump (@keydown (exampleHost 0.5) " " c) = false
  /\ Vector3.y (velocity (@keydown (exampleHost 0.5) " " c)) = JUMP_FORCE
  /\ @keydown (exampleHost 0.5) " " (@keydown (exampleHost 0.5) " " c)
     = set_keysPressed ({[ " " ]} ∪ keysPressed (@keydown (exampleHost 0.5) " " c)) (@keydown (exampleHost 0.5) " " c).
Proof.
  intros c.
  destruct (@jump_request (exampleHost 0.5) c) as [G _].
  destruct (G eq_refl) as (V & J & _).
  destruct (@jump_request (exampleHost 0.5) (@keydown (exampleHost 0.5) " " c)) as [_ A].
  destruct (A J) as [K _].
  repeat split; assumption.
Defined.

(** The claim C4 fails for an avatar in the air that has not jumped: a
    player who walks off a platform is falling, above the ground and
    supported by no block, with [canJump] still set, and the space key
    going down gives it the jump impulse. *)
Lemma falling_player_still_jumps :
  let h := exampleHost 0.5 in
  let platform := box 0 0.75 0 2 0.5 2 false in
  let c := @frames h 20 (@keydown h "w" (desktopAt 0 1.01 0 true [platform])) in
  (0.5 <? currentY c) = true
  /\ (Vector3.y (velocity c) <? 0) = true
  /\ standingOnBlock (@collideAll h c (blockMeshes (scene c)) (@candidate h c)) = false
  /\ canJump c = true
  /\ Vector3.y (velocity (@keydown h " " c)) = JUMP_FORCE
  /\ canJump (@keydown h " " c) = false
  /\ JS.ne (Vector3.y (velocity (@keydown h " " c))) (Vector3.y (velocity c)) = true.
Proof. vm_compute. repeat split. Qed.

(** ** The ground plane *)

Section Ground.
Context `{Host}.

(** C2 (as amended): on a frame that is processed and on which no block
    passes the standing test, the candidate height is the current height
    plus the velocity less gravity, whether the avatar is grounded or not;
    when that candidate is at most [0.5] the frame ends at height exactly
    [0.5] (resolved and stored) with vertical velocity [0] and the jump
    flag set, otherwise it ends at the candidate with the velocity less
    gravity.  From height [0.5] with velocity [0] the frame ends at height
    [0.5]. *)
Theorem ground_clamp (c : PlayerControls) :
  runs c = true ->
  standingOnBlock (collideAll c (blockMeshes (scene c)) (candidate c)) = false ->
  let c' := processMovement c in
  let v := Vector3.y (velocity c) - GRAVITY in
  ((currentY c + v <=? 0.5) = true ->
     newY (resolve c) = 0.5 /\ Presence.y (presence c') = Some 0.5
     /\ Vector3.y (velocity c') = 0 /\ canJump c' = true)
  /\ ((currentY c + v <=? 0.5) = false ->
     newY (resolve c) = currentY c + v /\ Vector3.y (velocity c') = v)
  /\ (Presence.y (presence c) = Some 0.5 -> Vector3.y (velocity c) = 0 ->
     Presence.y (presence c') = Some 0.5 /\ Vector3.y (velocity c') = 0).
Proof.
  intros R S c' v. subst c'. rewrite (processMovement_runs c R).
  rewrite moveAndBroadcast_velocity.
  rewrite moveAndBroadcast_canJump.
  unfold collideAll in S.
  rewrite foldl_standingOnBlock in S by reflexivity.
  pose proof (foldl_not_standing _ _ _ _ _ S) as (Ey & Ev & Ej & Es).
  fold (collideAll c (blockMeshes (scene c)) (candidate c)) in Ey, Ev, Ej, Es.
  assert (Clamp : (currentY c + v <=? 0.5) = true ->
     newY (resolve c) = 0.5 /\ Presence.y (presence (moveAndBroadcast c)) = Some 0.5
     /\ Vector3.y (Vector3.set_y (velocity c) (vy (resolve c))) = 0
     /\ jumpOk (resolve c) = true).
  { intros Le. unfold resolve, groundCheck. rewrite Ey, Es. simpl.
    fold v. rewrite Le. simpl. repeat split.
    destruct (moveAndBroadcast_stored_y c) as (w & Ew & Cases).
    rewrite Ew. f_equal.
    unfold resolve, groundCheck in Cases. rewrite Ey, Es in Cases. simpl in Cases.
    fold v in Cases. rewrite Le in Cases. simpl in Cases.
    destruct Cases as [-> | [_ Z]]; [reflexivity|].
    vm_compute in Z. discriminate. }
  split; [exact Clamp|]. split.
  - intros Gt. unfold resolve, groundCheck. rewrite Ey, Es. simpl.
    fold v. rewrite Gt. simpl. rewrite Ey, Ev. simpl. split; reflexivity.
  - intros Py Vy.
    assert (Le : (currentY c + v <=? 0.5) = true).
    { unfold v, currentY. rewrite Py, Vy. vm_compute. reflexivity. }
    destruct (Clamp Le) as (_ & P & V & _). split; assumption.
Qed.

End Ground.

Lemma ground_clamp_witness :
  let c := desktopAt 0 0.5 0 true [box 3 1 0 1 2 1 true] in
  runs c = true
  /\ Presence.y (presence (@processMovement (exampleHost 0.5) c)) = Some 0.5
  /\ Vector3.y (velocity (@processMovement (exampleHost 0.5) c)) = 0.
Proof.
  intros c. split; [reflexivity|].
  refine (proj2 (proj2 (@ground_clamp (exampleHost 0.5) c eq_refl _)) eq_refl eq_refl).
  vm_compute. reflexivity.
Defined.

(** The claim C2 without the restriction to processed frames fails: a
    desktop player who presses the space key while the pointer is not
    locked keeps the vertical velocity [JUMP_FORCE] over the frame; gravity
    is not subtracted although no block supports the avatar. *)
Lemma gravity_not_subtracted_while_released :
  let c := @keydown (exampleHost 0.5) " " (desktopAt 0 0.5 0 false []) in
  let c' := @processMovement (exampleHost 0.5) c in
  standingOnBlock
    (@collideAll (exampleHost 0.5) c (blockMeshes (scene c))
       (@candidate (exampleHost 0.5) c)) = false
  /\ Vector3.y (velocity c) = 0.25
  /\ (currentY c + (Vector3.y (velocity c) - GRAVITY) <=? 0.5) = false
  /\ Vector3.y (velocity c') = 0.25
  /\ JS.ne (Vector3.y (velocity c')) (Vector3.y (velocity c) - GRAVITY) = true.
Proof. vm_compute. repeat split. Qed.

(** ** Presence updates of a frame *)

Section Broadcast.
Context `{Host}.

(** After a processed frame whose resolved position has no [NaN], the
    stored position equals the resolved one on all three axes. *)
Lemma moveAndBroadcast_stored (c : PlayerControls) :
  PrimFloat.is_nan (newX (resolve c)) = false ->
  PrimFloat.is_nan (newY (resolve c)) = false ->
  PrimFloat.is_nan (newZ (resolve c)) = false ->
  positionChanged (resolve c) (presence (moveAndBroadcast c)) = false.
Proof.
  intros Nx Ny Nz. rewrite moveAndBroadcast_presence.
  destruct (positionChanged (resolve c) (presence c)) eqn:P; [|exact P].
  unfold positionChanged, JS.strict_ne. simpl.
  now rewrite !eqb_refl_not_nan by assumption.
Qed.

Lemma positionChanged_ext (r r' : Resolve) (p : Presence.t) :
  newX r' = newX r -> newY r' = newY r -> newZ r' = newZ r ->
  positionChanged r' p = positionChanged r p.
Proof. unfold positionChanged. now intros -> -> ->. Qed.

(** C5: a frame whose resolved position equals the stored presence on all
    three axes pushes no update; a processed frame whose resolved position
    differs from it on some axis pushes exactly one update, which carries
    the resolved position and the orientation of the camera; and when a
    processed frame is followed by a frame that resolves to the same
    position (no [NaN] in it), the second frame pushes nothing. *)
Theorem broadcast_suppression (c : PlayerControls) :
  let r := resolve c in
  (positionChanged r (presence c) = false -> sent (processMovement c) = sent c)
  /\ (runs c = true -> positionChanged r (presence c) = true ->
      sent (processMovement c) =
        sent c ++ [Presence.mk (Some (newX r)) (Some (newY r)) (Some (newZ r))
                     (Some (Quaternion.toArray (cam_quaternion (camera c))))
                     None None])
  /\ (runs c = true ->
      PrimFloat.is_nan (newX r) = false ->
      PrimFloat.is_nan (newY r) = false ->
      PrimFloat.is_nan (newZ r) = false ->
      let c1 := processMovement c in
      newX (resolve c1) = newX r -> newY (resolve c1) = newY r ->
      newZ (resolve c1) = newZ r ->
      sent (processMovement c1) = sent c1).
Proof.
  intros r.
  assert (Same : forall d, positionChanged (resolve d) (presence d) = false ->
                           sent (processMovement d) = sent d).
  { intros d P. unfold processMovement.
    destruct (negb (isMobile d) && negb (pointerLocked d)); [reflexivity|].
    now rewrite moveAndBroadcast_sent, P. }
  split; [apply Same|]. split.
  - intros R P. rewrite (processMovement_runs c R), moveAndBroadcast_sent.
    fold r. now rewrite P.
  - intros R Nx Ny Nz c1 Ex Ey Ez. apply Same.
    rewrite (positionChanged_ext r _ _ Ex Ey Ez).
    subst c1. rewrite (processMovement_runs c R).
    now apply moveAndBroadcast_stored.
Qed.

End Broadcast.

Lemma broadcast_suppression_witness :
  let c := @keydown (exampleHost 0.5) "w" (desktopAt 0 0.5 0 true []) in
  let c1 := @processMovement (exampleHost 0.5) c in
  runs c = true
  /\ sent c1 = [Presence.mk (Some 0) (Some 0.5) (Some (-0.08)) (Some [0; 0; 0; 1]) None None]
  /\ sent (@processMovement (exampleHost 0.5) (@keyup (exampleHost 0.5) "w" c1)) = sent (@keyup (exampleHost 0.5) "w" c1).
Proof.
  intros c c1. split; [reflexivity|]. split.
  - exact (proj1 (proj2 (@broadcast_suppression (exampleHost 0.5) c)) eq_refl eq_refl).
  - apply (proj1 (@broadcast_suppression (exampleHost 0.5) (@keyup (exampleHost 0.5) "w" c1))).
    vm_compute. reflexivity.
Defined.

(** ** Standing on a block *)

Section Standing.
Context `{Host}.

Lemma groundCheck_landed (r : Resolve) : landed r -> groundCheck r = r.
Proof.
  intros (_ & _ & S). unfold groundCheck. rewrite S.
  now rewrite andb_false_r.
Qed.

(** C1 (as amended): on a processed frame, let the loop reach a block with
    the vertical velocity at most [0], the candidate over the widened
    footprint of the block, the current height within [0.2] of its top
    face and not below its centre.  Then the loop sets the candidate
    height to the top face plus [0.01], the frame ends with vertical
    velocity exactly [0] and the jump flag set, and, unless a later block
    of the scene passes the same test, the resolved height is that top
    face plus [0.01] and so is the stored height (up to the sign of a
    zero). *)
Theorem standing_on_block (c : PlayerControls) (before after : list Object3D)
    (b : Object3D) :
  runs c = true ->
  blockMeshes (scene c) = before ++ b :: after ->
  let campos := cam_position (camera c) in
  let r := collideAll c before (candidate c) in
  standingTest (currentY c) b r = true ->
  let r' := collideBlock campos (movementOf c) (currentY c) r b in
  let c' := processMovement c in
  newY r' = blockTop b + 0.01
  /\ Vector3.y (velocity c') = 0 /\ canJump c' = true
  /\ (anyStanding campos (movementOf c) (currentY c) r' after = false ->
      newY (resolve c) = blockTop b + 0.01
      /\ exists v, Presence.y (presence c') = Some v
           /\ (v = blockTop b + 0.01
               \/ (PrimFloat.is_zero v = true
                   /\ PrimFloat.is_zero (blockTop b + 0.01) = true))).
Proof.
  intros R Split campos r T r' c'.
  assert (Er' : r' = {| newX := newX r; newY := blockTop b + 0.01; newZ := newZ r;
                        vy := 0; jumpOk := true; standingOnBlock := true |})
    by now apply collideBlock_standing.
  assert (L' : landed r') by (rewrite Er'; repeat split).
  assert (Eall : collideAll c (blockMeshes (scene c)) (candidate c)
                 = foldl (collideBlock campos (movementOf c) (currentY c)) r' after).
  { unfold collideAll. rewrite Split, foldl_app. reflexivity. }
  assert (Lend : landed (collideAll c (blockMeshes (scene c)) (candidate c)))
    by (rewrite Eall; now apply foldl_landed).
  assert (Eres : resolve c = collideAll c (blockMeshes (scene c)) (candidate c))
    by now apply groundCheck_landed.
  subst c'. rewrite (processMovement_runs c R).
  rewrite moveAndBroadcast_velocity, moveAndBroadcast_canJump, Eres.
  destruct Lend as (Lv & Lj & _).
  split; [now rewrite Er'|]. split; [exact Lv|]. split; [exact Lj|].
  intros A.
  destruct (foldl_not_standing _ _ _ _ _ A) as (Ey & _).
  assert (Ny : newY (resolve c) = blockTop b + 0.01)
    by (rewrite Eres, Eall, Ey, Er'; reflexivity).
  split; [rewrite <- Eres; exact Ny|].
  destruct (moveAndBroadcast_stored_y c) as (v & Ev & Cases).
  exists v. rewrite <- Ny. split; assumption.
Qed.

End Standing.

Lemma standing_on_block_witness :
  let b := box 0 0.75 0 2 0.5 2 false in
  let c := desktopAt 0 1.05 0 true [b] in
  standingTest (currentY c) b (@candidate (exampleHost 0.5) c) = true
  /\ Vector3.y (velocity (@processMovement (exampleHost 0.5) c)) = 0
  /\ canJump (@processMovement (exampleHost 0.5) c) = true
  /\ newY (@resolve (exampleHost 0.5) c) = blockTop b + 0.01.
Proof.
  intros b c.
  pose proof (@standing_on_block (exampleHost 0.5) c [] [] b eq_refl eq_refl eq_refl)
    as (_ & V & J & Y).
  split; [reflexivity|]. split; [exact V|]. split; [exact J|].
  exact (proj1 (Y eq_refl)).
Defined.

(** The claim C1 read for every obstacle of the frame fails when two blocks
    pass the standing test: an avatar at height [1.11] over two stacked
    platforms with top faces at [1] and [1.1] fulfils the four conditions
    for the lower platform, and the frame commits the height of the upper
    one, which the loop reaches later. *)
Lemma standing_height_of_last_block :
  let lower := box 0 0.75 0 2 0.5 2 false in
  let upper := box 0 0.85 0 2 0.5 2 false in
  let c := desktopAt 0 1.11 0 true [lower; upper] in
  let c' := @processMovement (exampleHost 0.5) c in
  runs c = true
  /\ standingTest (currentY c) lower (@candidate (exampleHost 0.5) c) = true
  /\ newY (@resolve (exampleHost 0.5) c) = blockTop upper + 0.01
  /\ Presence.y (presence c') = Some (blockTop upper + 0.01)
  /\ JS.strict_ne (blockTop lower + 0.01) (Presence.y (presence c')) = true.
Proof. vm_compute. repeat split. Qed.

(** ** Horizontal collisions *)

Section Sliding.
Context `{Host}.

Lemma groundCheck_horizontal (r : Resolve) :
  newX (groundCheck r) = newX r /\ newZ (groundCheck r) = newZ r.
Proof. unfold groundCheck. destruct (_ && _); split; reflexivity. Qed.

(** C3 (as amended): on a processed frame, let the loop reach a block that
    fails the standing test while the candidate is over its widened
    footprint and the candidate's vertical range meets the block.  Then at
    most one horizontal axis of the candidate is put back to the camera's
    coordinate before the move: [x] when the camera is farther from the
    centre of the block along [x] than along [z] and the movement along
    [x] is not zero; otherwise [z] when the movement along [z] is not
    zero.  The other axis, the height and the velocity are left as they
    were.  In particular a move along [z] alone has [z] put back and [x]
    kept, and a move along [x] alone with the larger distance along [x]
    has [x] put back and [z] kept.  When the block is the last of the
    scene the resolved horizontal position is the one it leaves. *)
Theorem axis_revert (c : PlayerControls) (before after : list Object3D)
    (b : Object3D) :
  runs c = true ->
  blockMeshes (scene c) = before ++ b :: after ->
  let campos := cam_position (camera c) in
  let m := movementOf c in
  let r := collideAll c before (candidate c) in
  standingTest (currentY c) b r = false ->
  horizontalTest b r = true ->
  let xDist := abs (Vector3.x campos - Vector3.x (position b)) in
  let zDist := abs (Vector3.z campos - Vector3.z (position b)) in
  let r' := collideBlock campos m (currentY c) r b in
  ((zDist <? xDist) = true -> (0 <? abs (Vector3.x m)) = true ->
     newX r' = Vector3.x campos /\ newZ r' = newZ r)
  /\ ((zDist <? xDist) && (0 <? abs (Vector3.x m)) = false ->
      (0 <? abs (Vector3.z m)) = true ->
      newZ r' = Vector3.z campos /\ newX r' = newX r)
  /\ ((0 <? abs (Vector3.x m)) = false -> (0 <? abs (Vector3.z m)) = true ->
      newZ r' = Vector3.z campos /\ newX r' = newX r)
  /\ ((0 <? abs (Vector3.z m)) = false -> (zDist <? xDist) = true ->
      (0 <? abs (Vector3.x m)) = true ->
      newX r' = Vector3.x campos /\ newZ r' = newZ r)
  /\ (newX r' = newX r \/ newZ r' = newZ r)
  /\ newY r' = newY r /\ vy r' = vy r /\ jumpOk r' = jumpOk r
  /\ (after = [] -> newX (resolve c) = newX r' /\ newZ (resolve c) = newZ r').
Proof.
  intros R Split campos m r T Hz xDist zDist r'.
  assert (Er' : r' =
    if (zDist <? xDist) && (0 <? abs (Vector3.x m)) then
      {| newX := Vector3.x campos; newY := newY r; newZ := newZ r;
         vy := vy r; jumpOk := jumpOk r; standingOnBlock := standingOnBlock r |}
    else if 0 <? abs (Vector3.z m) then
      {| newX := newX r; newY := newY r; newZ := Vector3.z campos;
         vy := vy r; jumpOk := jumpOk r; standingOnBlock := standingOnBlock r |}
    else r).
  { subst r'. unfold collideBlock. now rewrite T, Hz. }
  split. { intros A B. rewrite Er', A, B. split; reflexivity. }
  split. { intros A B. rewrite Er', A, B. split; reflexivity. }
  split. { intros A B. rewrite Er', A, B, andb_false_r. split; reflexivity. }
  split. { intros _ A B. rewrite Er', A, B. split; reflexivity. }
  split.
  { rewrite Er'. destruct (_ && _); [now right|].
    destruct (0 <? abs (Vector3.z m)); now left. }
  assert (Same : newY r' = newY r /\ vy r' = vy r /\ jumpOk r' = jumpOk r).
  { rewrite Er'. destruct (_ && _); [repeat split|].
    destruct (0 <? abs (Vector3.z m)); repeat split. }
  destruct Same as (Sy & Sv & Sj).
  split; [exact Sy|]. split; [exact Sv|]. split; [exact Sj|].
  intros ->. unfold resolve, collideAll. rewrite Split, foldl_app. simpl.
  apply groundCheck_horizontal.
Qed.

End Sliding.

Lemma axis_revert_witness :
  let wall := box 1 1 0 1 2 4 true in
  let c := @keydown (exampleHost 0.5) "d" (desktopAt 0.15 0.5 0 true [wall]) in
  runs c = true
  /\ Vector3.x (@movementOf (exampleHost 0.5) c) = 0.08
  /\ newX (@candidate (exampleHost 0.5) c) = 0.15 + 0.08
  /\ newX (@resolve (exampleHost 0.5) c) = 0.15
  /\ newZ (@resolve (exampleHost 0.5) c) = newZ (@candidate (exampleHost 0.5) c).
Proof.
  intros wall c.
  pose proof (@axis_revert (exampleHost 0.5) c [] [] wall
                eq_refl eq_refl eq_refl eq_refl) as (X & _ & _ & _ & _ & _ & _ & _ & L).
  destruct (X eq_refl eq_refl) as [Ex Ez].
  destruct (L eq_refl) as [Lx Lz].
  split; [reflexivity|]. split; [reflexivity|]. split; [reflexivity|].
  split.
  - exact (eq_trans Lx Ex).
  - exact (eq_trans Lz Ez).
Defined.

(** The claim C3 fails where the avatar moves along the face of a barrier:
    the camera is farther from the centre of the wall along [x] than along
    [z], the move is along [z] alone, and the loop puts [z] back, so the
    movement along the other axis is not kept. *)
Lemma slide_along_face_reverted :
  let wall := box 1 1 0 1 2 4 true in
  let c := @keydown (exampleHost 0.5) "w" (desktopAt 0.25 0.5 0.5 true [wall]) in
  let r := @candidate (exampleHost 0.5) c in
  let campos := cam_position (camera c) in
  runs c = true
  /\ standingTest (currentY c) wall r = false
  /\ horizontalTest wall r = true
  /\ (abs (Vector3.z campos - Vector3.z (position wall))
        <? abs (Vector3.x campos - Vector3.x (position wall))) = true
  /\ @movementOf (exampleHost 0.5) c = Vector3.mk 0 0 (-0.08)
  /\ newZ r = 0.5 + -0.08
  /\ newZ (@resolve (exampleHost 0.5) c) = 0.5
  /\ JS.ne (newZ (@resolve (exampleHost 0.5) c)) (newZ r) = true.
Proof. vm_compute. repeat split. Qed.

(** A move along [x] alone into the long side of a barrier, the camera
    being farther from its centre along [z], is not put back at all: the
    candidate inside the widened footprint is resolved as it is. *)
Lemma long_side_not_blocked :
  let wall := box 1 1 0 1 2 4 true in
  let c := @keydown (exampleHost 0.5) "d" (desktopAt 0.15 0.5 1.5 true [wall]) in
  let r := @candidate (exampleHost 0.5) c in
  standingTest (currentY c) wall r = false
  /\ horizontalTest wall r = true
  /\ @movementOf (exampleHost 0.5) c = Vector3.mk 0.08 0 0
  /\ newX (@resolve (exampleHost 0.5) c) = 0.15 + 0.08
  /\ newZ (@resolve (exampleHost 0.5) c) = 1.5.
Proof. vm_compute. repeat split. Qed.

(** ** Directions with a NaN component *)

Section Direction.
Context `{Host}.

Lemma targetDirection_NaN (cam : Camera) :
  Vector3.anyNaN (getWorldDirection cam) = true ->
  targetDirection cam = Vector3.mk 0 0 (-1).
Proof. intros N. unfold targetDirection. rewrite N. vm_compute. reflexivity. Qed.

(** C8 (as amended): on a mobile frame whose resolved position differs
    from the stored presence, the camera direction read for the orbit
    target is replaced by [(0, 0, -1)] when one of its components is
    [NaN], and the orbit controls are updated with the target at the new
    camera position plus that direction.  (The check is for [NaN] alone,
    and neither the directions used for the movement nor the position or
    the orientation that are pushed are checked.) *)
Theorem orbit_target_direction (c : PlayerControls) (o : OrbitControls) :
  isMobile c = true ->
  orbitControls c = Some o ->
  positionChanged (resolve c) (presence c) = true ->
  let r := resolve c in
  let cam1 := movedCamera r (camera c) in
  Vector3.anyNaN (getWorldDirection cam1) = true ->
  let c' := processMovement c in
  targetDirection cam1 = Vector3.mk 0 0 (-1)
  /\ orbitTarget r cam1 = Vector3.mk (newX r + 0) (newY r + 1.2 + 0) (newZ r + -1)
  /\ (camera c', orbitControls c')
     = (let '(cm, o') := orbitControls_update cam1 {| target := orbitTarget r cam1 |} in
        (cm, Some o')).
Proof.
  intros M O P r cam1 N c'.
  pose proof (targetDirection_NaN cam1 N) as D.
  split; [exact D|]. split.
  - unfold orbitTarget. rewrite D. reflexivity.
  - subst c' cam1 r. unfold processMovement. rewrite M. simpl.
    unfold moveAndBroadcast. rewrite O, P, M. simpl.
    destruct (orbitControls_update _ _). reflexivity.
Qed.

End Direction.

Lemma orbit_target_direction_witness :
  let c := set_camera (cameraTurned (Quaternion.mk nan 0 0 1) (Vector3.mk 0 3.2 0))
             (mobileAt 0 2 0 []) in
  let c' := @processMovement (exampleHost 0.5) c in
  isMobile c = true
  /\ Vector3.anyNaN (@getWorldDirection (exampleHost 0.5) (camera c)) = true
  /\ orbitControls c' = Some {| target := Vector3.mk 0 (2 + (0 - 0.01) + 1.2) (-1) |}.
Proof.
  intros c c'.
  pose proof (@orbit_target_direction (exampleHost 0.5) c
                {| target := Vector3.mk 0 (2 + 1.2) (0 - 1) |}
                eq_refl eq_refl eq_refl eq_refl) as (_ & T & U).
  split; [reflexivity|]. split; [reflexivity|].
  exact (f_equal snd U).
Defined.

(** The claim C8 fails: on a mobile device whose camera orientation has a
    [NaN] component, a falling avatar with the joystick at rest has the
    direction for the orbit target replaced, and the update pushed in the
    same frame carries the orientation with its [NaN] into the presence
    store. *)
Lemma nan_orientation_reaches_presence :
  let h := exampleHost 0.5 in
  let c := set_camera (cameraTurned (Quaternion.mk nan 0 0 1) (Vector3.mk 0 3.2 0))
             (mobileAt 0 2 0 []) in
  let c' := @processMovement h c in
  runs c = true
  /\ Vector3.anyNaN (@getWorldDirection h (movedCamera (@resolve h c) (camera c))) = true
  /\ orbitControls c' = Some {| target := Vector3.mk 0 (2 + (0 - 0.01) + 1.2) (-1) |}
  /\ sent c' = [Presence.mk (Some 0) (Some (2 + (0 - 0.01))) (Some 0)
                  (Some [nan; 0; 0; 1]) None None]
  /\ Presence.quaternion (presence c') = Some [nan; 0; 0; 1].
Proof. vm_compute. repeat split. Qed.

(** With the joystick pushed the direction read for the movement, [NaN] in
    every component, is used as it is: the resolved position is [NaN] on
    two axes and is pushed as well. *)
Lemma nan_direction_reaches_presence :
  let h := exampleHost 0.5 in
  let c := set_camera (cameraTurned (Quaternion.mk nan 0 0 1) (Vector3.mk 0 1.7 0))
             (@joystick_move h 1 (JS.Math_PI / 2) (mobileAt 0 0.5 0 [])) in
  let c' := @processMovement h c in
  runs c = true
  /\ @getWorldDirection h (camera c) = Vector3.mk nan nan nan
  /\ sent c' = [Presence.mk (Some nan) (Some 0.5) (Some nan) (Some [nan; 0; 0; 1]) None None]
  /\ JS.finite (Presence.x (presence c')) = false
  /\ JS.finite (Presence.z (presence c')) = false
  /\ Presence.quaternion (presence c') = Some [nan; 0; 0; 1].
Proof. vm_compute. repeat split. Qed.

(** The same on desktop, where no direction is checked at all. *)
Lemma nan_direction_reaches_presence_desktop :
  let h := exampleHost 0.5 in
  let c := set_camera (cameraTurned (Quaternion.mk nan 0 0 1) (Vector3.mk 0 1.7 0))
             (@keydown (exampleHost 0.5) "w" (desktopAt 0 0.5 0 true [])) in
  sent (@processMovement h c)
  = [Presence.mk (Some nan) (Some 0.5) (Some nan) (Some [nan; 0; 0; 1]) None None].
Proof. vm_compute. reflexivity. Qed.

(** ** Partial presence records *)




(** There is no default for [z] in [safePresence]: a record without it
    leaves the avatar's [z] where it was, at [0] for a new avatar and at
    the [z] of the record before for a known one. *)
Lemma missing_z_keeps_previous :
  let q := Quaternion.mk 0 0 0 1 in
  let first := Presence.mk (Some 1) (Some 0.5) (Some 2) None None None in
  let second := Presence.mk (Some 3) None None None None None in
  let st1 := updatePlayerObject "me" q "B" first noPlayers in
  let st2 := updatePlayerObject "me" q "B" second st1 in
  av_position <$> playerObjects st1 !! "B" = Some (Some 1, Some 0.5, Some 2)
  /\ av_position <$> playerObjects st2 !! "B" = Some (Some 3, Some 0.5, Some 2)
  /\ av_position <$>
       playerObjects (updatePlayerObject "me" q "C" Presence.empty noPlayers) !! "C"
     = Some (Some 0, Some 0.5, Some 0).
Proof. vm_compute. repeat split. Qed.

(** ** The life of a remote avatar *)

Lemma count_op_snoc (o o' : SceneOp) (ops : list SceneOp) :
  count_op o (ops ++ [o']) = (count_op o ops + if decide (o' = o) then 1 else 0)%nat.
Proof.
  unfold count_op. rewrite filter_app, length_app. f_equal.
  rewrite filter_cons, filter_nil. now destruct (decide (o' = o)).
Qed.

Section Lifecycle.
Variables (self : string) (camq : Quaternion.t) (B : string).

(** What the proofs follow for the id [B]: its entry in [playerObjects]
    and how often its group was added to and removed from the scene. *)
Local Abbreviation entry st := (playerObjects st !! B).
Local Abbreviation adds st := (count_op (SceneAdd B) (sceneOps st)).
Local Abbreviation removes st := (count_op (SceneRemove B) (sceneOps st)).

Lemma updateStep_other (st : Players) (k : string) (p : Presence.t) :
  k <> B ->
  let st' := updateStep self camq st (k, p) in
  entry st' = entry st /\ adds st' = adds st /\ removes st' = removes st.
Proof.
  intros Hk. simpl. destruct (bool_decide (k ≠ self)); [|auto].
  unfold updatePlayerObject. destruct (bool_decide (k = "")); [auto|].
  destruct (playerObjects st !! k); simpl; rewrite lookup_insert_ne by done;
    [auto|].
  rewrite !count_op_snoc.
  destruct (decide (SceneAdd k = SceneAdd B)) as [[=]|]; [done|].
  destruct (decide (SceneAdd k = SceneRemove B)); [done|]. auto with lia.
Qed.

Lemma updateStep_inert (st : Players) (k : string) (p : Presence.t) :
  B = self \/ B = "" ->
  playerObjects (updateStep self camq st (k, p)) !! B = entry st.
Proof.
  intros I. destruct (decide (k = B)) as [->|Hk].
  - simpl. destruct I as [->| ->].
    + now rewrite bool_decide_eq_false_2 by auto.
    + destruct (bool_decide ("" ≠ self)); [|done]. unfold updatePlayerObject.
      now rewrite bool_decide_eq_true_2.
  - now destruct (updateStep_other st k p Hk) as (-> & _).
Qed.

Lemma updateStep_same (st : Players) (p : Presence.t) :
  B <> self -> B <> "" ->
  let st' := updateStep self camq st (B, p) in
  is_Some (entry st')
  /\ adds st' = (adds st + match entry st with Some _ => 0 | None => 1 end)%nat
  /\ removes st' = removes st.
Proof.
  intros Hs He. simpl. rewrite bool_decide_eq_true_2 by done.
  unfold updatePlayerObject. rewrite (bool_decide_eq_false_2 _ He).
  destruct (playerObjects st !! B); simpl; rewrite lookup_insert_eq.
  - split; [eauto|]. split; [lia|done].
  - rewrite !count_op_snoc. rewrite decide_True by done.
    destruct (decide (SceneAdd B = SceneRemove B)); [done|].
    split; [eauto|]. split; lia.
Qed.

Lemma updates_absent (l : list (string * Presence.t)) (st : Players) :
  B ∉ l.*1 ->
  let st' := foldl (updateStep self camq) st l in
  entry st' = entry st /\ adds st' = adds st /\ removes st' = removes st.
Proof.
  revert st. induction l as [|[k p] l IH]; intros st N; [done|].
  rewrite fmap_cons, not_elem_of_cons in N. destruct N as [Hk N]. simpl in Hk.
  cbn [foldl]. destruct (IH (updateStep self camq st (k, p)) N) as (-> & -> & ->).
  apply updateStep_other. congruence.
Qed.

Lemma updates_inert (l : list (string * Presence.t)) (st : Players) :
  B = self \/ B = "" ->
  playerObjects (foldl (updateStep self camq) st l) !! B = entry st.
Proof.
  intros I. revert st. induction l as [|[k p] l IH]; intros st; [done|].
  cbn [foldl]. rewrite IH. now apply updateStep_inert.
Qed.

Lemma updates_known (l : list (string * Presence.t)) (st : Players) :
  B <> self -> B <> "" -> is_Some (entry st) ->
  let st' := foldl (updateStep self camq) st l in
  is_Some (entry st') /\ adds st' = adds st /\ removes st' = removes st.
Proof.
  intros Hs He. revert st. induction l as [|[k p] l IH]; intros st K; [done|].
  cbn [foldl]. destruct (decide (k = B)) as [->|Hk].
  - destruct (updateStep_same st p Hs He) as (K' & A & R).
    destruct (IH _ K') as (? & -> & ->). destruct K as [? K]. rewrite K in A.
    split; [done|]. split; [lia|done].
  - destruct (updateStep_other st k p Hk) as (E & A & R).
    destruct (IH (updateStep self camq st (k, p))) as (? & -> & ->);
      [now rewrite E|]. auto.
Qed.

Lemma updates_new (l : list (string * Presence.t)) (st : Players) :
  B <> self -> B <> "" -> B ∈ l.*1 -> entry st = None ->
  let st' := foldl (updateStep self camq) st l in
  is_Some (entry st') /\ adds st' = S (adds st) /\ removes st' = removes st.
Proof.
  intros Hs He. revert st. induction l as [|[k p] l IH]; intros st I N.
  { now apply elem_of_nil in I. }
  cbn [foldl]. destruct (decide (k = B)) as [->|Hk].
  - destruct (updateStep_same st p Hs He) as (K' & A & R). rewrite N in A.
    destruct (updates_known l _ Hs He K') as (? & -> & ->).
    split; [done|]. split; [lia|done].
  - rewrite fmap_cons, elem_of_cons in I. destruct I as [I|I]; [simpl in I; congruence|].
    destruct (updateStep_other st k p Hk) as (E & A & R).
    destruct (IH (updateStep self camq st (k, p)) I) as (? & -> & ->);
      [now rewrite E|]. split; [done|]. split; [lia|done].
Qed.

Section Removal.
Variable snapshot : gmap string Presence.t.

Lemma removeStep_other (st : Players) (k : string) (v : Avatar) :
  k <> B ->
  let st' := removeStep self snapshot st (k, v) in
  entry st' = entry st /\ adds st' = adds st /\ removes st' = removes st.
Proof.
  intros Hk. simpl. destruct (_ && _); [|auto].
  unfold removePlayerObject. destruct (playerObjects st !! k); [|auto].
  simpl. rewrite lookup_delete_ne by done. rewrite !count_op_snoc.
  destruct (decide (SceneRemove k = SceneAdd B)); [done|].
  destruct (decide (SceneRemove k = SceneRemove B)) as [[=]|]; [done|].
  auto with lia.
Qed.

Lemma removeStep_absent (st : Players) (k : string) (v : Avatar) :
  entry st = None ->
  let st' := removeStep self snapshot st (k, v) in
  entry st' = None /\ adds st' = adds st /\ removes st' = removes st.
Proof.
  intros N. cbv zeta. destruct (decide (k = B)) as [->|Hk].
  - simpl. destruct (_ && _); [|auto]. unfold removePlayerObject. rewrite N. auto.
  - destruct (removeStep_other st k v Hk) as (-> & -> & ->). auto.
Qed.

Lemma removeStep_same (st : Players) (v : Avatar) :
  B <> self -> snapshot !! B = None -> is_Some (entry st) ->
  let st' := removeStep self snapshot st (B, v) in
  entry st' = None /\ adds st' = adds st /\ removes st' = S (removes st).
Proof.
  intros Hs G [old K]. simpl.
  rewrite (bool_decide_eq_true_2 _ Hs), (bool_decide_eq_true_2 _ G). simpl.
  unfold removePlayerObject. rewrite K. simpl. rewrite lookup_delete_eq.
  rewrite !count_op_snoc.
  destruct (decide (SceneRemove B = SceneAdd B)); [done|].
  destruct (decide (SceneRemove B = SceneRemove B)); [|done].
  split; [done|]. split; lia.
Qed.

Lemma removes_absent (l : list (string * Avatar)) (st : Players) :
  entry st = None ->
  let st' := foldl (removeStep self snapshot) st l in
  entry st' = None /\ adds st' = adds st /\ removes st' = removes st.
Proof.
  revert st. induction l as [|[k v] l IH]; intros st N; [done|].
  cbn [foldl]. destruct (removeStep_absent st k v N) as (N' & A & R).
  destruct (IH _ N') as (-> & -> & ->). auto.
Qed.

Lemma removes_kept (l : list (string * Avatar)) (st : Players) :
  B = self \/ is_Some (snapshot !! B) ->
  let st' := foldl (removeStep self snapshot) st l in
  entry st' = entry st /\ adds st' = adds st /\ removes st' = removes st.
Proof.
  intros Keep. revert st. induction l as [|[k v] l IH]; intros st; [done|].
  cbn [foldl]. destruct (IH (removeStep self snapshot st (k, v))) as (-> & -> & ->).
  destruct (decide (k = B)) as [->|Hk]; [|now apply removeStep_other].
  simpl. destruct Keep as [->|[p G]].
  - now rewrite bool_decide_eq_false_2 by auto.
  - rewrite (bool_decide_eq_false_2 (snapshot !! B = None)) by (rewrite G; done).
    now rewrite andb_false_r.
Qed.

Lemma removes_gone (l : list (string * Avatar)) (st : Players) :
  B <> self -> snapshot !! B = None -> B ∈ l.*1 -> is_Some (entry st) ->
  let st' := foldl (removeStep self snapshot) st l in
  entry st' = None /\ adds st' = adds st /\ removes st' = S (removes st).
Proof.
  intros Hs G. revert st. induction l as [|[k v] l IH]; intros st I K.
  { now apply elem_of_nil in I. }
  cbn [foldl]. destruct (decide (k = B)) as [->|Hk].
  - destruct (removeStep_same st v Hs G K) as (N & A & R).
    destruct (removes_absent l _ N) as (-> & -> & ->). auto.
  - rewrite fmap_cons, elem_of_cons in I. destruct I as [I|I]; [simpl in I; congruence|].
    destruct (removeStep_other st k v Hk) as (E & A & R).
    destruct (IH (removeStep self snapshot st (k, v)) I) as (-> & -> & ->);
      [now rewrite E|]. auto.
Qed.

End Removal.

Lemma elem_of_keys {A} (m : gmap string A) (k : string) :
  k ∈ (map_to_list m).*1 <-> is_Some (m !! k).
Proof.
  rewrite list_elem_of_fmap. split.
  - intros ([k' v] & -> & I). apply elem_of_map_to_list in I. eauto.
  - intros [v I]. exists (k, v). split; [done|]. now apply elem_of_map_to_list.
Qed.

(** One callback with [B] in the snapshot: afterwards [B] has an avatar,
    which was added to the scene in this callback exactly when there was
    none before. *)
Lemma onPresence_present (snapshot : gmap string Presence.t) (st : Players) :
  B <> self -> B <> "" -> is_Some (snapshot !! B) ->
  let st' := onPresence self camq snapshot st in
  is_Some (entry st')
  /\ adds st' = (adds st + match entry st with Some _ => 0 | None => 1 end)%nat
  /\ removes st' = removes st.
Proof.
  intros Hs He G. unfold onPresence.
  destruct (removes_kept snapshot (map_to_list
              (playerObjects (foldl (updateStep self camq) st (map_to_list snapshot))))
              (foldl (updateStep self camq) st (map_to_list snapshot)) (or_intror G))
    as (-> & -> & ->).
  apply elem_of_keys in G.
  destruct (entry st) eqn:K.
  - destruct (updates_known (map_to_list snapshot) st Hs He) as (? & -> & ->);
      [rewrite K; eauto|]. split; [done|]. split; [lia|done].
  - destruct (updates_new (map_to_list snapshot) st Hs He G K) as (? & -> & ->).
    split; [done|]. split; [lia|done].
Qed.

(** One callback without [B] in the snapshot: afterwards [B] has no avatar,
    and its group was removed from the scene in this callback exactly when
    there was one before. *)
Lemma onPresence_absent (snapshot : gmap string Presence.t) (st : Players) :
  B <> self -> snapshot !! B = None ->
  let st' := onPresence self camq snapshot st in
  entry st' = None
  /\ adds st' = adds st
  /\ removes st' = (removes st + match entry st with Some _ => 1 | None => 0 end)%nat.
Proof.
  intros Hs G. unfold onPresence.
  assert (N : B ∉ (map_to_list snapshot).*1).
  { rewrite elem_of_keys, G. now intros [? ?]. }
  destruct (updates_absent (map_to_list snapshot) st N) as (E & A & R).
  destruct (entry st) eqn:K.
  - destruct (removes_gone snapshot (map_to_list
                (playerObjects (foldl (updateStep self camq) st (map_to_list snapshot))))
                (foldl (updateStep self camq) st (map_to_list snapshot)) Hs G)
      as (-> & -> & ->).
    + apply elem_of_keys. rewrite E; eauto.
    + rewrite E; eauto.
    + split; [done|]. split; [done|]. lia.
  - destruct (removes_absent snapshot (map_to_list
                (playerObjects (foldl (updateStep self camq) st (map_to_list snapshot))))
                (foldl (updateStep self camq) st (map_to_list snapshot)) E)
      as (-> & -> & ->).
    split; [done|]. split; [done|]. lia.
Qed.

(** The own id and the empty id never get an entry. *)
Lemma onPresence_inert (snapshot : gmap string Presence.t) (st : Players) :
  B = self \/ B = "" -> entry st = None ->
  playerObjects (onPresence self camq snapshot st) !! B = None.
Proof.
  intros I N. unfold onPresence.
  apply removes_absent. now rewrite updates_inert.
Qed.

Lemma onPresences_cons (s : gmap string Presence.t)
    (l : list (gmap string Presence.t)) (st : Players) :
  onPresences self camq (s :: l) st
  = onPresences self camq l (onPresence self camq s st).
Proof. reflexivity. Qed.

(** Snapshots without [B] leave it without avatar and add no scene
    operation for it. *)
Lemma run_absent (l : list (gmap string Presence.t)) (st : Players) :
  B <> self -> Forall (fun s => s !! B = None) l -> entry st = None ->
  let st' := onPresences self camq l st in
  entry st' = None /\ adds st' = adds st /\ removes st' = removes st.
Proof.
  intros Hs F. revert st. induction F as [|s l G F IH]; intros st N; [done|].
  cbv zeta. rewrite onPresences_cons.
  destruct (onPresence_absent s st Hs G) as (N' & A & R). rewrite N in R.
  destruct (IH _ N') as (-> & -> & ->). split; [done|]. split; [done|]. lia.
Qed.

(** Snapshots with [B], once it has an avatar, keep that avatar and add no
    scene operation for it. *)
Lemma run_known (l : list (gmap string Presence.t)) (st : Players) :
  B <> self -> B <> "" -> Forall (fun s => is_Some (s !! B)) l ->
  is_Some (entry st) ->
  let st' := onPresences self camq l st in
  is_Some (entry st') /\ adds st' = adds st /\ removes st' = removes st.
Proof.
  intros Hs He F. revert st. induction F as [|s l G F IH]; intros st K; [done|].
  cbv zeta. rewrite onPresences_cons.
  destruct (onPresence_present s st Hs He G) as (K' & A & R).
  destruct K as [old K]. rewrite K in A.
  destruct (IH _ K') as (? & -> & ->). split; [done|]. split; [lia|done].
Qed.

(** The first snapshot with [B] adds its avatar, once. *)
Lemma run_new (s : gmap string Presence.t) (l : list (gmap string Presence.t))
    (st : Players) :
  B <> self -> B <> "" -> Forall (fun s => is_Some (s !! B)) (s :: l) ->
  entry st = None ->
  let st' := onPresences self camq (s :: l) st in
  is_Some (entry st') /\ adds st' = S (adds st) /\ removes st' = removes st.
Proof.
  intros Hs He F N. apply Forall_cons in F as [G F].
  cbv zeta. rewrite onPresences_cons.
  destruct (onPresence_present s st Hs He G) as (K' & A & R). rewrite N in A.
  destruct (run_known l _ Hs He F K') as (? & -> & ->).
  split; [done|]. split; [lia|done].
Qed.

Lemma run_inert (l : list (gmap string Presence.t)) (st : Players) :
  B = self \/ B = "" -> entry st = None ->
  playerObjects (onPresences self camq l st) !! B = None.
Proof.
  intros I. revert st. induction l as [|s l IH]; intros st N; [done|].
  rewrite onPresences_cons. apply IH. now apply onPresence_inert.
Qed.

End Lifecycle.

Lemma onPresences_snoc (self : string) (camq : Quaternion.t)
    (l : list (gmap string Presence.t)) (s : gmap string Presence.t) (st : Players) :
  onPresences self camq (l ++ [s]) st
  = onPresence self camq s (onPresences self camq l st).
Proof. unfold onPresences. now rewrite foldl_app. Qed.

Lemma onPresences_app (self : string) (camq : Quaternion.t)
    (l1 l2 : list (gmap string Presence.t)) (st : Players) :
  onPresences self camq (l1 ++ l2) st
  = onPresences self camq l2 (onPresences self camq l1 st).
Proof. unfold onPresences. now rewrite foldl_app. Qed.

(** After a callback the ids with an avatar are those of the snapshot but
    the own id and the empty one. *)
Lemma onPresence_dom (self : string) (camq : Quaternion.t)
    (snapshot : gmap string Presence.t) (st : Players) :
  playerObjects st !! self = None -> playerObjects st !! "" = None ->
  dom (playerObjects (onPresence self camq snapshot st)) = dom snapshot ∖ {[ self; "" ]}.
Proof.
  intros Ns Ne. apply set_eq. intros k.
  rewrite elem_of_difference, !elem_of_dom, elem_of_union, !elem_of_singleton.
  destruct (decide (k = self)) as [->|Hs].
  { rewrite (onPresence_inert self camq self snapshot st) by auto.
    split; [now intros [? ?] | intros [_ []]; auto]. }
  destruct (decide (k = "")) as [->|He].
  { rewrite (onPresence_inert self camq "" snapshot st) by auto.
    split; [now intros [? ?] | intros [_ []]; auto]. }
  destruct (snapshot !! k) as [p|] eqn:G.
  - destruct (onPresence_present self camq k snapshot st Hs He) as (K & _);
      [rewrite G; eauto|].
    split; [intros _; split; [eauto | intros [|]; done] | intros _; exact K].
  - destruct (onPresence_absent self camq k snapshot st Hs G) as (-> & _).
    split; [now intros [? ?] | now intros [[? ?] _]].
Qed.

(** C6: let the snapshots first lack the id [B] (not the own id; an id is
    not the empty string), then contain it through one or more snapshots,
    then lack it.  From the first snapshot with [B] on and as long as [B]
    stays, [B] has an avatar, its group was added to the scene once and
    never removed; after the snapshot without [B] it has no avatar, and
    its group was added once and removed once.  After every callback the
    ids with an avatar are exactly the ids of the snapshot other than the
    own one (and the empty string, which is no id). *)
Theorem presence_lifecycle (self : string) (camq : Quaternion.t) (B : string)
    (before during : list (gmap string Presence.t)) (gone : gmap string Presence.t) :
  B <> self -> B <> "" ->
  Forall (fun s => s !! B = None) before ->
  Forall (fun s => is_Some (s !! B)) during ->
  during <> [] ->
  gone !! B = None ->
  (forall seen later, during = seen ++ later -> seen <> [] ->
     let st := onPresences self camq (before ++ seen) noPlayers in
     is_Some (playerObjects st !! B)
     /\ count_op (SceneAdd B) (sceneOps st) = 1%nat
     /\ count_op (SceneRemove B) (sceneOps st) = 0%nat)
  /\ (let st := onPresences self camq (before ++ during ++ [gone]) noPlayers in
      playerObjects st !! B = None
      /\ count_op (SceneAdd B) (sceneOps st) = 1%nat
      /\ count_op (SceneRemove B) (sceneOps st) = 1%nat)
  /\ (forall l snapshot,
      dom (playerObjects (onPresences self camq (l ++ [snapshot]) noPlayers))
      = dom snapshot ∖ {[ self; "" ]}).
Proof.
  intros Hs He Fb Fd Nd G.
  destruct (run_absent self camq B before noPlayers Hs Fb eq_refl) as (N0 & A0 & R0).
  assert (Seen : forall seen later, during = seen ++ later -> seen <> [] ->
     let st := onPresences self camq (before ++ seen) noPlayers in
     is_Some (playerObjects st !! B)
     /\ count_op (SceneAdd B) (sceneOps st) = 1%nat
     /\ count_op (SceneRemove B) (sceneOps st) = 0%nat).
  { intros seen later E Ns. rewrite E in Fd. apply Forall_app in Fd as [Fs _].
    destruct seen as [|s seen]; [done|]. cbv zeta. rewrite onPresences_app.
    destruct (run_new self camq B s seen _ Hs He Fs N0) as (K & -> & ->).
    rewrite A0, R0. auto. }
  split; [exact Seen|]. split.
  - cbv zeta. rewrite app_assoc, onPresences_snoc.
    destruct (Seen during [] (eq_sym (app_nil_r _)) Nd) as ([old K] & A & R).
    destruct (onPresence_absent self camq B gone
                (onPresences self camq (before ++ during) noPlayers) Hs G)
      as (-> & -> & ->).
    rewrite K, A, R. auto.
  - intros l snapshot. rewrite onPresences_snoc.
    apply onPresence_dom; apply run_inert; auto.
Qed.

Lemma presence_lifecycle_witness :
  let p := Presence.mk (Some 1) (Some 0.5) (Some 2) None (Some "Bea") None in
  let withB : gmap string Presence.t := {[ "B" := p ]} in
  let st := onPresences "me" (Quaternion.mk 0 0 0 1)
              ([∅] ++ [withB; withB] ++ [∅]) noPlayers in
  playerObjects st !! "B" = None
  /\ count_op (SceneAdd "B") (sceneOps st) = 1%nat
  /\ count_op (SceneRemove "B") (sceneOps st) = 1%nat.
Proof.
  intros p withB.
  refine (proj1 (proj2 (presence_lifecycle "me" (Quaternion.mk 0 0 0 1) "B"
                          [∅] [withB; withB] ∅ _ _ _ _ _ _))).
  - discriminate.
  - discriminate.
  - repeat constructor.
  - repeat constructor; exists p; reflexivity.
  - discriminate.
  - reflexivity.
Defined.

(** ** The obstacle generator *)

Lemma addMeshes_ext (make1 make2 : MathRandom.t -> Mesh * MathRandom.t)
    (n : nat) (rng : MathRandom.t) (children : list Mesh) :
  (forall g, make1 g = make2 g) ->
  addMeshes make1 n rng children = addMeshes make2 n rng children.
Proof.
  intros E. revert rng children. induction n as [|n IH]; intros rng children; [reflexivity|].
  simpl. rewrite E. destruct (make2 rng). apply IH.
Qed.

(** The meshes are appended to the scene, and what is appended does not
    depend on the scene. *)
Lemma addMeshes_app (make : MathRandom.t -> Mesh * MathRandom.t)
    (n : nat) (rng : MathRandom.t) (children : list Mesh) :
  addMeshes make n rng children
  = (children ++ (addMeshes make n rng []).1, (addMeshes make n rng []).2).
Proof.
  revert rng children. induction n as [|n IH]; intros rng children; simpl.
  - now rewrite app_nil_r.
  - destruct (make rng) as [m rng']. rewrite (IH rng' (children ++ [m])).
    rewrite (IH rng' [m]). simpl. now rewrite <- app_assoc.
Qed.

Lemma addMeshes_length (make : MathRandom.t -> Mesh * MathRandom.t)
    (n : nat) (rng : MathRandom.t) (children : list Mesh) :
  length (addMeshes make n rng children).1 = (length children + n)%nat.
Proof.
  revert rng children. induction n as [|n IH]; intros rng children; simpl; [lia|].
  destruct (make rng) as [m rng']. rewrite IH, length_app. simpl. lia.
Qed.

(** C9: for every seed, two runs of the generator that start from any two
    scenes, on hosts that may differ in everything but sine and cosine (so
    also in what [Math.random] returns), append the same sequence of
    meshes, dimensions and positions included; it has 25 elements. *)
Theorem generator_deterministic (h1 h2 : Host) (barrierSeed : float)
    (children1 children2 : list Mesh) :
  (forall a, @Math_sin h1 a = @Math_sin h2 a) ->
  (forall a, @Math_cos h1 a = @Math_cos h2 a) ->
  let layout := @createBarriersFrom h1 barrierSeed [] in
  @createBarriersFrom h1 barrierSeed children1 = children1 ++ layout
  /\ @createBarriersFrom h2 barrierSeed children2 = children2 ++ layout
  /\ length layout = 25%nat.
Proof.
  intros Es Ec layout.
  assert (Eb : forall g, @barrier h2 g = @barrier h1 g).
  { intros g. unfold barrier, MathRandom.random. simpl. now rewrite !Es, !Ec. }
  assert (Ep : forall g, @platform h2 g = @platform h1 g).
  { intros g. unfold platform, MathRandom.random. simpl. now rewrite !Es, !Ec. }
  assert (App : forall children,
    @createBarriersFrom h1 barrierSeed children = children ++ layout).
  { intros children. subst layout. unfold createBarriersFrom.
    rewrite (addMeshes_app barrier 15 _ children).
    destruct (addMeshes barrier 15 (MathRandom.new barrierSeed) []) as [walls rng].
    cbn [fst snd].
    rewrite (addMeshes_app platform 10 rng (children ++ walls)).
    rewrite (addMeshes_app platform 10 rng walls).
    cbn [fst snd]. now rewrite app_assoc. }
  split; [apply App|]. split.
  - rewrite <- App. unfold createBarriersFrom.
    rewrite (addMeshes_ext _ _ 15 _ _ Eb).
    destruct (addMeshes barrier 15 _ children2) as [ch rng].
    now rewrite (addMeshes_ext _ _ 10 _ _ Ep).
  - subst layout. unfold createBarriersFrom.
    pose proof (addMeshes_length barrier 15 (MathRandom.new barrierSeed) []) as L1.
    destruct (addMeshes barrier 15 _ []) as [ch rng].
    pose proof (addMeshes_length platform 10 rng ch) as L2.
    destruct (addMeshes platform 10 rng ch) as [ch' rng'].
    simpl in *. lia.
Qed.

Lemma generator_deterministic_witness :
  let ground := {| dims := Vector3.mk 50 0 50; mesh_position := Vector3.zero;
                   userData_isBarrier := false; userData_isBlock := false |} in
  @createBarriersFrom (exampleHost 0.9) 12345 [ground]
  = [ground] ++ @createBarriersFrom (exampleHost 0.1) 12345 []
  /\ length (@createBarriersFrom (exampleHost 0.1) 12345 []) = 25%nat.
Proof.
  intros ground.
  exact (proj2 (generator_deterministic (exampleHost 0.1) (exampleHost 0.9) 12345
                  [] [ground] (fun a => eq_refl) (fun a => eq_refl))).
Defined.

(** * Further properties *)

#[local] Set Warnings "-clear-no-such-hyp".

(** ** The order of the numbers *)

Lemma SFcompare_refl (a : spec_float) :
  a <> S754_nan -> SFcompare a a = Some Eq.
Proof.
  destruct a as [s|s| |s m e]; intros N; try (now destruct s); [easy|].
  simpl. destruct s; rewrite Z.compare_refl;
    change (Pos.compare_cont Eq m m) with (Pos.compare m m);
    now rewrite Pos.compare_refl.
Qed.

Lemma SFcompare_swap (a b : spec_float) :
  SFcompare b a = CompOpp <$> SFcompare a b.
Proof.
  destruct a as [s|s| |s m e], b as [t|t| |t n e']; try reflexivity;
    try (now destruct s); try (now destruct t); try (now destruct s, t).
  simpl. destruct s, t; try reflexivity; simpl; f_equal;
    rewrite (Z.compare_antisym e e');
    change (Pos.compare_cont Eq n m) with (Pos.compare n m);
    change (Pos.compare_cont Eq m n) with (Pos.compare m n);
    rewrite (Pos.compare_antisym m n);
    destruct (e ?= e')%Z; simpl; try reflexivity;
    now destruct (m ?= n)%positive.
Qed.

Lemma is_nan_spec (a : float) :
  PrimFloat.is_nan a = true <-> Prim2SF a = S754_nan.
Proof.
  unfold PrimFloat.is_nan. rewrite FloatAxioms.eqb_spec. unfold SFeqb. split.
  - intros E. destruct (Prim2SF a) eqn:P; try reflexivity;
      rewrite SFcompare_refl in E by discriminate; discriminate.
  - now intros ->.
Qed.

(** [NaN] is [!==] to every number. *)
Lemma nan_strict_ne (a : float) (b : JS.value) :
  PrimFloat.is_nan a = true -> JS.strict_ne a b = true.
Proof.
  intros N. destruct b as [f|]; [|reflexivity]. simpl.
  rewrite FloatAxioms.eqb_spec. apply is_nan_spec in N. now rewrite N.
Qed.

Lemma ltb_not_nan (a b : float) :
  (a <? b) = true -> PrimFloat.is_nan a = false /\ PrimFloat.is_nan b = false.
Proof.
  rewrite FloatAxioms.ltb_spec. unfold SFltb. intros L.
  split; apply not_true_is_false; rewrite is_nan_spec; intros E; rewrite E in L;
    [discriminate|]. now destruct (Prim2SF a).
Qed.

Lemma ltb_asym (a b : float) : (a <? b) = true -> (b <? a) = false.
Proof.
  rewrite !FloatAxioms.ltb_spec. unfold SFltb.
  rewrite (SFcompare_swap (Prim2SF a) (Prim2SF b)).
  now destruct (SFcompare (Prim2SF a) (Prim2SF b)) as [[]|].
Qed.

(** Two numbers that are not in the order [a <= b] are in the order
    [b < a], or one of them is [NaN]. *)
Lemma leb_false_cases (a b : float) :
  (a <=? b) = false ->
  (b <? a) = true \/ PrimFloat.is_nan a = true \/ PrimFloat.is_nan b = true.
Proof.
  rewrite FloatAxioms.leb_spec, FloatAxioms.ltb_spec. unfold SFleb, SFltb.
  rewrite (SFcompare_swap (Prim2SF a) (Prim2SF b)). intros L.
  destruct (SFcompare (Prim2SF a) (Prim2SF b)) as [[]|] eqn:C;
    try discriminate; [now left|].
  right. rewrite !is_nan_spec.
  destruct (Prim2SF a) as [s|s| |s m e], (Prim2SF b) as [t|t| |t n e'];
    auto; simpl in C; try discriminate; now destruct s.
Qed.

Lemma ltb_leb (a b : float) : (a <? b) = true -> (a <=? b) = true.
Proof.
  rewrite FloatAxioms.leb_spec, FloatAxioms.ltb_spec. unfold SFleb, SFltb.
  now destruct (SFcompare (Prim2SF a) (Prim2SF b)) as [[]|].
Qed.

(** Adding [0] gives a number that is [===] to the original. *)
Lemma add_zero_eqb (a : float) :
  PrimFloat.is_nan a = false -> (a + 0 =? a) = true.
Proof.
  intros N. rewrite FloatAxioms.eqb_spec, FloatAxioms.add_spec.
  change (Prim2SF 0) with (S754_zero false).
  assert (Hn : Prim2SF a <> S754_nan) by (rewrite <- is_nan_spec, N; discriminate).
  unfold SF64add, SFeqb. destruct (Prim2SF a) as [s|s| |s m e] eqn:P.
  - now destruct s.
  - now rewrite SFcompare_refl.
  - easy.
  - cbn [SFadd]. now rewrite SFcompare_refl.
Qed.

(** ** The layout of the obstacles *)

Section Layout.
Context `{Host}.

Lemma addMeshes_Forall (P : Mesh -> Prop)
    (make : MathRandom.t -> Mesh * MathRandom.t) (n : nat) (rng : MathRandom.t) :
  (forall g, P (make g).1) -> Forall P (addMeshes make n rng []).1.
Proof.
  intros Hp. revert rng. induction n as [|n IH]; intros rng; simpl; [constructor|].
  pose proof (Hp rng) as Hm. destruct (make rng) as [m rng'].
  rewrite (addMeshes_app make n rng' [m]). simpl. constructor; [exact Hm | apply IH].
Qed.

(** X1: whatever the seed and the scene, [createBarriers] appends 15 walls
    followed by 10 platforms.  Every wall is flagged as barrier and stands
    on the ground plane (its centre is at half its height); every platform
    is flagged as block and measures 2 x 0.5 x 2. *)
Theorem generator_layout (barrierSeed : float) (children : list Mesh) :
  exists walls platforms,
    createBarriersFrom barrierSeed children = children ++ walls ++ platforms
    /\ length walls = 15%nat /\ length platforms = 10%nat
    /\ Forall (fun m => userData_isBarrier m = true /\ userData_isBlock m = false
                        /\ Vector3.y (mesh_position m) = Vector3.y (dims m) / 2) walls
    /\ Forall (fun m => userData_isBlock m = true /\ userData_isBarrier m = false
                        /\ dims m = Vector3.mk 2 0.5 2) platforms.
Proof.
  unfold createBarriersFrom.
  rewrite (addMeshes_app barrier 15 _ children).
  pose proof (addMeshes_length barrier 15 (MathRandom.new barrierSeed) []) as Lw.
  pose proof (addMeshes_Forall
                (fun m => userData_isBarrier m = true /\ userData_isBlock m = false
                          /\ Vector3.y (mesh_position m) = Vector3.y (dims m) / 2)
                barrier 15 (MathRandom.new barrierSeed)) as Fw.
  destruct (addMeshes barrier 15 (MathRandom.new barrierSeed) []) as [walls rng].
  cbn [fst snd] in *.
  rewrite (addMeshes_app platform 10 rng (children ++ walls)).
  pose proof (addMeshes_length platform 10 rng []) as Lp.
  pose proof (addMeshes_Forall
                (fun m => userData_isBlock m = true /\ userData_isBarrier m = false
                          /\ dims m = Vector3.mk 2 0.5 2)
                platform 10 rng) as Fp.
  destruct (addMeshes platform 10 rng []) as [platforms rng'].
  cbn [fst snd] in *.
  exists walls, platforms. rewrite <- app_assoc.
  split; [reflexivity|]. split; [exact Lw|]. split; [exact Lp|]. split.
  - apply Fw. intros g. unfold barrier, MathRandom.random. simpl. auto.
  - apply Fp. intros g. unfold platform, MathRandom.random. simpl. auto.
Qed.

End Layout.

(** ** What a frame can do to the player *)

Lemma is_zero_spec (a : float) :
  PrimFloat.is_zero a = true -> exists s, Prim2SF a = S754_zero s.
Proof.
  unfold PrimFloat.is_zero. rewrite FloatAxioms.eqb_spec.
  change (Prim2SF 0) with (S754_zero false).
  intros E. destruct (SFeqb_true_cases _ _ E) as [-> | (s & t & -> & _)]; eauto.
Qed.

Lemma zero_eqb (a b : float) :
  PrimFloat.is_zero a = true -> PrimFloat.is_zero b = true -> (a =? b) = true.
Proof.
  intros [s Ea]%is_zero_spec [t Eb]%is_zero_spec.
  now rewrite FloatAxioms.eqb_spec, Ea, Eb.
Qed.

Section Loop2.
Variables (campos movement : Vector3.t) (y : float).

Local Abbreviation step := (collideBlock campos movement y).

Lemma collideBlock_jumpOk (r : Resolve) (b : Object3D) :
  jumpOk r = true -> jumpOk (step r b) = true.
Proof.
  intros J. unfold collideBlock. destruct (standingTest y b r); [reflexivity|].
  destruct (horizontalTest b r); [|exact J].
  destruct (_ && _); [exact J|]. now destruct (0 <? _).
Qed.

Lemma foldl_jumpOk (blocks : list Object3D) (r : Resolve) :
  jumpOk r = true -> jumpOk (foldl step r blocks) = true.
Proof.
  revert r. induction blocks as [|b blocks IH]; intros r J; [exact J|].
  apply IH, collideBlock_jumpOk, J.
Qed.

Lemma collideBlock_reachable (r0 r : Resolve) (b : Object3D) :
  reachable campos r0 r -> reachable campos r0 (step r b).
Proof.
  intros (X & Z & V). unfold collideBlock, reachable.
  destruct (standingTest y b r); [simpl; auto|].
  destruct (horizontalTest b r); [|auto].
  destruct (_ && _); [simpl; auto|]. destruct (0 <? _); simpl; auto.
Qed.

Lemma foldl_reachable (blocks : list Object3D) (r0 r : Resolve) :
  reachable campos r0 r -> reachable campos r0 (foldl step r blocks).
Proof.
  revert r. induction blocks as [|b blocks IH]; intros r R; [exact R|].
  apply IH, collideBlock_reachable, R.
Qed.

End Loop2.

Section Frame2.
Context `{Host}.

Lemma groundCheck_jumpOk (r : Resolve) :
  jumpOk r = true -> jumpOk (groundCheck r) = true.
Proof. intros J. unfold groundCheck. now destruct (_ && _). Qed.

Lemma resolve_reachable (c : PlayerControls) :
  reachable (cam_position (camera c)) (candidate c) (resolve c).
Proof.
  unfold resolve.
  assert (R : reachable (cam_position (camera c)) (candidate c)
                (collideAll c (blockMeshes (scene c)) (candidate c))).
  { apply foldl_reachable. repeat split; now left. }
  destruct R as (X & Z & V). unfold groundCheck, reachable.
  destruct (_ && _); simpl; auto.
Qed.

(** X2: no frame clears the jump flag.  Only the two jump handlers do, so
    a player who walks off a platform without jumping can still jump while
    falling. *)
Theorem frame_keeps_canJump (c : PlayerControls) :
  canJump c = true -> canJump (processMovement c) = true.
Proof.
  intros J. unfold processMovement.
  destruct (negb (isMobile c) && negb (pointerLocked c)); [exact J|].
  rewrite moveAndBroadcast_canJump. unfold resolve.
  apply groundCheck_jumpOk. unfold collideAll. apply foldl_jumpOk. exact J.
Qed.

(** X3: on a processed frame each horizontal coordinate of the resolved
    position is the candidate (the camera's coordinate plus the movement)
    or the camera's coordinate itself, and the vertical velocity after the
    frame is the velocity less gravity or exactly [0]; the other two
    components of the velocity are never touched. *)
Theorem frame_outcomes (c : PlayerControls) :
  runs c = true ->
  let c' := processMovement c in
  let campos := cam_position (camera c) in
  let m := movementOf c in
  (newX (resolve c) = Vector3.x campos + Vector3.x m
   \/ newX (resolve c) = Vector3.x campos)
  /\ (newZ (resolve c) = Vector3.z campos + Vector3.z m
      \/ newZ (resolve c) = Vector3.z campos)
  /\ (Vector3.y (velocity c') = Vector3.y (velocity c) - GRAVITY
      \/ Vector3.y (velocity c') = 0)
  /\ Vector3.x (velocity c') = Vector3.x (velocity c)
  /\ Vector3.z (velocity c') = Vector3.z (velocity c).
Proof.
  intros R c' campos m. subst c'. rewrite (processMovement_runs c R).
  rewrite moveAndBroadcast_velocity.
  destruct (resolve_reachable c) as (X & Z & V).
  repeat split; assumption.
Qed.

(** X4: when no block supports the avatar, the resolved height is never
    below the ground plane: it is at least [0.5], or it is [NaN]. *)
Theorem never_below_ground (c : PlayerControls) :
  standingOnBlock (collideAll c (blockMeshes (scene c)) (candidate c)) = false ->
  (0.5 <=? newY (resolve c)) = true \/ PrimFloat.is_nan (newY (resolve c)) = true.
Proof.
  intros S. unfold resolve, groundCheck. rewrite S.
  destruct (newY _ <=? 0.5) eqn:L; simpl; [now left|].
  destruct (leb_false_cases _ _ L) as [G | [N | N]].
  - left. now apply ltb_leb.
  - now right.
  - discriminate N.
Qed.

Lemma strict_ne_false_cases (a : float) (b : JS.value) :
  JS.strict_ne a b = false ->
  exists v, b = Some v
    /\ (v = a \/ (PrimFloat.is_zero v = true /\ PrimFloat.is_zero a = true)).
Proof.
  destruct b as [v|]; [|discriminate]. simpl. intros E%negb_false_iff.
  exists v. split; [reflexivity|].
  destruct (eqb_true_cases _ _ E) as [->|[? ?]]; auto.
Qed.

(** After a processed frame each stored coordinate is the resolved one, up
    to the sign of a zero. *)
Lemma moveAndBroadcast_stored_xz (c : PlayerControls) :
  (exists v, Presence.x (presence (moveAndBroadcast c)) = Some v
     /\ (v = newX (resolve c)
         \/ (PrimFloat.is_zero v = true /\ PrimFloat.is_zero (newX (resolve c)) = true)))
  /\ (exists v, Presence.z (presence (moveAndBroadcast c)) = Some v
     /\ (v = newZ (resolve c)
         \/ (PrimFloat.is_zero v = true /\ PrimFloat.is_zero (newZ (resolve c)) = true))).
Proof.
  rewrite moveAndBroadcast_presence.
  destruct (positionChanged _ _) eqn:P.
  - split; eexists; (split; [reflexivity | now left]).
  - unfold positionChanged in P.
    apply orb_false_elim in P as [P Pz]. apply orb_false_elim in P as [Px _].
    split; now apply strict_ne_false_cases.
Qed.

(** X5: when the stored record lacks [x], [y] or [z], a processed frame
    pushes an update, and afterwards the record has all three coordinates,
    those the frame resolved, and an orientation. *)
Theorem missing_coordinate_is_pushed (c : PlayerControls) :
  runs c = true ->
  Presence.x (presence c) = None \/ Presence.y (presence c) = None
  \/ Presence.z (presence c) = None ->
  let c' := processMovement c in
  let r := resolve c in
  sent c' = sent c ++ [moveUpdate r (camera c)]
  /\ Presence.x (presence c') = Some (newX r)
  /\ Presence.y (presence c') = Some (newY r)
  /\ Presence.z (presence c') = Some (newZ r)
  /\ Presence.quaternion (presence c')
     = Some (Quaternion.toArray (cam_quaternion (camera c))).
Proof.
  intros R M c' r. subst c'. rewrite (processMovement_runs c R).
  rewrite moveAndBroadcast_sent, moveAndBroadcast_presence.
  assert (P : positionChanged (resolve c) (presence c) = true).
  { unfold positionChanged. destruct M as [-> | [-> | ->]]; simpl;
      rewrite ?orb_true_r; reflexivity. }
  rewrite P. repeat split.
Qed.

(** X6: a resolved position with a [NaN] coordinate is pushed on every
    processed frame, because [NaN] is different from every stored value,
    itself included; such a position is never suppressed. *)
Theorem nan_position_is_pushed (c : PlayerControls) :
  runs c = true ->
  let r := resolve c in
  PrimFloat.is_nan (newX r) = true \/ PrimFloat.is_nan (newY r) = true
  \/ PrimFloat.is_nan (newZ r) = true ->
  sent (processMovement c) = sent c ++ [moveUpdate r (camera c)]
  /\ positionChanged r (presence (processMovement c)) = true.
Proof.
  intros R r N.
  assert (P : forall p, positionChanged r p = true).
  { intros p. unfold positionChanged.
    destruct N as [N | [N | N]]; rewrite (nan_strict_ne _ _ N);
      rewrite ?orb_true_r; reflexivity. }
  rewrite (processMovement_runs c R), moveAndBroadcast_sent.
  fold r. rewrite !P. split; reflexivity.
Qed.

End Frame2.

(** ** A player who gives no input *)

Lemma keyDirection_none (keys : gset string) :
  keys ## movementKeys -> keyDirection keys = Vector3.zero.
Proof.
  intros D. unfold keyDirection, has, movementKeys in *.
  rewrite !bool_decide_eq_false_2 by set_solver. reflexivity.
Qed.

Section Still.
Context `{Host}.

Lemma noInput_movement (c : PlayerControls) :
  noInput c -> movementOf c = Vector3.zero.
Proof.
  unfold noInput, movementOf, moveDirection.
  destruct (isMobile c).
  - intros [-> ->]. reflexivity.
  - intros D. rewrite (keyDirection_none _ D). reflexivity.
Qed.

Lemma collideBlock_still (campos : Vector3.t) (y : float) (r : Resolve) (b : Object3D) :
  newX (collideBlock campos Vector3.zero y r b) = newX r
  /\ newZ (collideBlock campos Vector3.zero y r b) = newZ r.
Proof.
  unfold collideBlock. destruct (standingTest y b r); [split; reflexivity|].
  destruct (horizontalTest b r); [|split; reflexivity].
  change (0 <? abs (Vector3.x Vector3.zero)) with false.
  change (0 <? abs (Vector3.z Vector3.zero)) with false.
  rewrite andb_false_r. split; reflexivity.
Qed.

Lemma foldl_still (campos : Vector3.t) (y : float) (blocks : list Object3D) (r : Resolve) :
  newX (foldl (collideBlock campos Vector3.zero y) r blocks) = newX r
  /\ newZ (foldl (collideBlock campos Vector3.zero y) r blocks) = newZ r.
Proof.
  revert r. induction blocks as [|b blocks IH]; intros r; [split; reflexivity|].
  simpl. destruct (IH (collideBlock campos Vector3.zero y r b)) as [-> ->].
  apply collideBlock_still.
Qed.

Lemma noInput_resolve (c : PlayerControls) :
  noInput c ->
  newX (resolve c) = Vector3.x (cam_position (camera c)) + 0
  /\ newZ (resolve c) = Vector3.z (cam_position (camera c)) + 0.
Proof.
  intros N. pose proof (noInput_movement c N) as M.
  unfold resolve. destruct (groundCheck_horizontal
    (collideAll c (blockMeshes (scene c)) (candidate c))) as [-> ->].
  unfold collideAll. rewrite M.
  destruct (foldl_still (cam_position (camera c)) (currentY c)
              (blockMeshes (scene c)) (candidate c)) as [-> ->].
  unfold candidate. rewrite M. split; reflexivity.
Qed.

Lemma stored_matches (v a : float) :
  PrimFloat.is_nan a = false ->
  v = a + 0 \/ (PrimFloat.is_zero v = true /\ PrimFloat.is_zero (a + 0) = true) ->
  (v =? a) = true.
Proof.
  intros N [-> | [Zv Za]]; [now apply add_zero_eqb|].
  apply zero_eqb; [exact Zv|].
  destruct (eqb_true_cases _ _ (add_zero_eqb a N)) as [E | [_ Z]]; [|exact Z].
  now rewrite <- E.
Qed.

(** X7: with no horizontal input (no movement key held on desktop, the
    joystick values at [0] on mobile) no obstacle displaces the player:
    the frame resolves to the camera's own [x] and [z], and after a
    processed frame the stored [x] and [z] are equal ([===]) to the
    camera's, whatever was stored before. *)
Theorem no_input_keeps_place (c : PlayerControls) :
  noInput c ->
  let campos := cam_position (camera c) in
  PrimFloat.is_nan (Vector3.x campos) = false ->
  PrimFloat.is_nan (Vector3.z campos) = false ->
  (newX (resolve c) =? Vector3.x campos) = true
  /\ (newZ (resolve c) =? Vector3.z campos) = true
  /\ (runs c = true ->
      exists vx vz,
        Presence.x (presence (processMovement c)) = Some vx
        /\ Presence.z (presence (processMovement c)) = Some vz
        /\ (vx =? Vector3.x campos) = true /\ (vz =? Vector3.z campos) = true).
Proof.
  intros N campos Nx Nz. destruct (noInput_resolve c N) as [Ex Ez].
  split; [rewrite Ex; now apply add_zero_eqb|].
  split; [rewrite Ez; now apply add_zero_eqb|].
  intros R. rewrite (processMovement_runs c R).
  destruct (moveAndBroadcast_stored_xz c) as [(vx & Sx & Cx) (vz & Sz & Cz)].
  exists vx, vz. rewrite Ex in Cx. rewrite Ez in Cz.
  split; [exact Sx|]. split; [exact Sz|].
  split; now apply stored_matches.
Qed.

(** A joystick that was let go is no input. *)
Lemma joystick_end_noInput (c : PlayerControls) :
  isMobile c = true -> noInput (joystick_end c).
Proof. intros M. unfold noInput, joystick_end. simpl. rewrite M. now split. Qed.

(** X8: a desktop player at rest on the ground plane (no movement key
    held, vertical velocity [0], jump flag set, no block supporting it)
    whose stored position is the camera's position at height [0.5] is left
    exactly as it is by a frame: nothing is pushed and no field changes. *)
Theorem idle_frame_changes_nothing (c : PlayerControls) :
  isMobile c = false ->
  keysPressed c ## movementKeys ->
  Vector3.y (velocity c) = 0 ->
  canJump c = true ->
  Presence.x (presence c) = Some (Vector3.x (cam_position (camera c))) ->
  Presence.y (presence c) = Some 0.5 ->
  Presence.z (presence c) = Some (Vector3.z (cam_position (camera c))) ->
  PrimFloat.is_nan (Vector3.x (cam_position (camera c))) = false ->
  PrimFloat.is_nan (Vector3.z (cam_position (camera c))) = false ->
  standingOnBlock (collideAll c (blockMeshes (scene c)) (candidate c)) = false ->
  processMovement c = c.
Proof.
  intros M K V J Px Py Pz Nx Nz S.
  unfold processMovement. destruct (negb (isMobile c) && negb (pointerLocked c));
    [reflexivity|].
  assert (N : noInput c) by (unfold noInput; now rewrite M).
  destruct (noInput_resolve c N) as [Ex Ez].
  pose proof S as S'. unfold collideAll in S'.
  rewrite foldl_standingOnBlock in S' by reflexivity.
  pose proof (foldl_not_standing _ _ _ _ _ S') as (Ey & Ev & Ej & Es).
  fold (collideAll c (blockMeshes (scene c)) (candidate c)) in Ey, Ev, Ej, Es.
  assert (Le : (newY (collideAll c (blockMeshes (scene c)) (candidate c)) <=? 0.5) = true).
  { rewrite Ey. unfold candidate, currentY. simpl. rewrite Py, V. reflexivity. }
  assert (Er : resolve c =
    {| newX := Vector3.x (cam_position (camera c)) + 0; newY := 0.5;
       newZ := Vector3.z (cam_position (camera c)) + 0;
       vy := 0; jumpOk := true; standingOnBlock := false |}).
  { rewrite <- Ex, <- Ez. unfold resolve, groundCheck. rewrite Le, S. simpl.
    destruct (groundCheck_horizontal (collideAll c (blockMeshes (scene c)) (candidate c)))
      as [Gx Gz]. unfold resolve in Ex, Ez. reflexivity. }
  unfold moveAndBroadcast. rewrite Er.
  assert (P : positionChanged
    {| newX := Vector3.x (cam_position (camera c)) + 0; newY := 0.5;
       newZ := Vector3.z (cam_position (camera c)) + 0;
       vy := 0; jumpOk := true; standingOnBlock := false |} (presence c) = false).
  { unfold positionChanged. rewrite Px, Py, Pz. simpl.
    now rewrite !add_zero_eqb by assumption. }
  rewrite P, M. simpl.
  destruct c as [v cj ks mob jb mf mr px py pz cam oc pr st sc pl js].
  simpl in *. subst. destruct v as [vx vy0 vz]. simpl in V. subst vy0.
  destruct oc; reflexivity.
Qed.

End Still.

(** ** Jumping over open ground *)

Section Arc.
Context `{Host}.

Lemma moveAndBroadcast_static (c : PlayerControls) :
  scene (moveAndBroadcast c) = scene c
  /\ isMobile (moveAndBroadcast c) = isMobile c
  /\ pointerLocked (moveAndBroadcast c) = pointerLocked c.
Proof.
  unfold moveAndBroadcast. destruct (match _ with Some _ => _ | None => _ end).
  repeat split.
Qed.

(** The height the next frame starts from is the resolved one. *)
Lemma currentY_after (c : PlayerControls) :
  currentY (moveAndBroadcast c) = JS.or_else (Some (newY (resolve c))) 0.5.
Proof.
  unfold currentY. destruct (moveAndBroadcast_stored_y c) as (v & -> & [-> | [Zv Zn]]);
    [reflexivity|].
  unfold JS.or_else, JS.truthy_num. now rewrite Zv, Zn.
Qed.

(** Over a scene without blocks a processed frame acts on height, vertical
    velocity and jump flag as [fallStep] does, whatever the input, the
    camera and the device. *)
Lemma vertical_step (c : PlayerControls) :
  blockMeshes (scene c) = [] -> runs c = true ->
  vertical (processMovement c) = fallStep (vertical c).
Proof.
  intros B R. rewrite (processMovement_runs c R). unfold vertical.
  rewrite currentY_after, moveAndBroadcast_velocity, moveAndBroadcast_canJump.
  unfold resolve, collideAll. rewrite B. simpl. unfold groundCheck, fallStep. simpl.
  destruct (currentY c + (Vector3.y (velocity c) - GRAVITY) <=? 0.5); reflexivity.
Qed.

Lemma frames_static (n : nat) (c : PlayerControls) :
  scene (frames n c) = scene c /\ runs (frames n c) = runs c.
Proof.
  induction n as [|n [IHs IHr]]; [split; reflexivity|].
  unfold frames in *. simpl. unfold update at 1 3, processMovement.
  destruct (negb _ && negb _); [split; assumption|].
  destruct (moveAndBroadcast_static (Nat.iter n update c)) as (Es & Em & El).
  unfold runs in *. now rewrite Es, Em, El.
Qed.

Lemma frames_vertical (n : nat) (c : PlayerControls) :
  blockMeshes (scene c) = [] -> runs c = true ->
  vertical (frames n c) = Nat.iter n fallStep (vertical c).
Proof.
  intros B R. induction n as [|n IH]; [reflexivity|].
  destruct (frames_static n c) as [Es Er].
  change (frames (S n) c) with (processMovement (frames n c)).
  rewrite vertical_step by (rewrite ?Es, ?Er; assumption).
  change (Nat.iter (S n) fallStep (vertical c))
    with (fallStep (Nat.iter n fallStep (vertical c))).
  now rewrite IH.
Qed.

(** X9: over a scene without blocks, a jump from the ground plane lasts 49
    processed frames.  During the first 48 the player is above the ground,
    never higher than [3.5], and the jump flag stays cleared, so a second
    jump request has no effect; the 49th frame ends exactly at height
    [0.5] with vertical velocity [0] and the flag set again. *)
Theorem jump_arc (c : PlayerControls) :
  blockMeshes (scene c) = [] ->
  runs c = true ->
  Presence.y (presence c) = Some 0.5 ->
  canJump c = true ->
  let c1 := keydown " " c in
  (forall k, (1 <= k <= 48)%nat ->
     canJump (frames k c1) = false
     /\ (0.5 <? currentY (frames k c1)) = true
     /\ (currentY (frames k c1) <=? 3.5) = true)
  /\ vertical (frames 49 c1) = (0.5, 0, true).
Proof.
  intros B R Py J c1.
  assert (V1 : vertical c1 = (0.5, 0.25, false)).
  { subst c1. unfold vertical, keydown, currentY. simpl. rewrite J. simpl.
    now rewrite Py. }
  assert (B1 : blockMeshes (scene c1) = []).
  { subst c1. unfold keydown. simpl. now rewrite J. }
  assert (R1 : runs c1 = true).
  { subst c1. unfold keydown. simpl. now rewrite J. }
  split.
  - intros k Hk.
    pose proof (frames_vertical k c1 B1 R1) as E. rewrite V1 in E.
    assert (F : forallb (fun k =>
               let '(y, v, j) := Nat.iter k fallStep (0.5, 0.25, false) in
               negb j && (0.5 <? y) && (y <=? 3.5)) (seq 1 48) = true)
      by (vm_compute; reflexivity).
    rewrite List.forallb_forall in F.
    specialize (F k (proj2 (List.in_seq 48 1 k) ltac:(lia))).
    unfold vertical in E. rewrite <- E in F. simpl in F.
    apply andb_prop in F as [F Le]. apply andb_prop in F as [Nj Gt].
    apply negb_true_iff in Nj. auto.
  - rewrite (frames_vertical 49 c1 B1 R1), V1. vm_compute. reflexivity.
Qed.

End Arc.

(** ** What counts as an obstacle *)

Section Scenery.
Context `{Host}.

Lemma resolve_scene (l : list Object3D) (c : PlayerControls) :
  blockMeshes l = blockMeshes (scene c) -> resolve (set_scene l c) = resolve c.
Proof. intros E. unfold resolve, collideAll. simpl. now rewrite E. Qed.

Lemma processMovement_scene (l : list Object3D) (c : PlayerControls) :
  blockMeshes l = blockMeshes (scene c) ->
  processMovement (set_scene l c) = set_scene l (processMovement c).
Proof.
  intros E. unfold processMovement. simpl.
  destruct (negb (isMobile c) && negb (pointerLocked c)); [reflexivity|].
  unfold moveAndBroadcast. rewrite (resolve_scene l c E). simpl.
  destruct (match _ with Some _ => _ | None => _ end). reflexivity.
Qed.

(** X10: a child of the scene that is flagged neither as block nor as
    barrier (the ground, a light, the group of another player) is no
    obstacle: a frame in a scene with it does to the player exactly what
    it does in the scene without it.  Players walk through each other. *)
Theorem scenery_is_no_obstacle (c : PlayerControls) (o : Object3D)
    (before after : list Object3D) :
  isBlock o = false -> isBarrier o = false ->
  scene c = before ++ o :: after ->
  processMovement (set_scene (before ++ after) c)
  = set_scene (before ++ after) (processMovement c).
Proof.
  intros Hb Hr S. apply processMovement_scene. rewrite S. unfold blockMeshes.
  rewrite !filter_app, filter_cons. rewrite decide_False; [reflexivity|].
  rewrite Hb, Hr. discriminate.
Qed.

End Scenery.

(** ** Keys and joystick *)

Lemma has_union_other (k k' : string) (keys : gset string) :
  k <> k' -> has k ({[ k' ]} ∪ keys) = has k keys.
Proof. intros N. unfold has. apply bool_decide_ext. set_solver. Qed.

(** X11: a key that went down is released by the key going up in any
    letter case (Shift or Caps Lock changed in between): afterwards its
    lower-case name is not held, and the other held keys are as before. *)
Theorem key_release_any_case `{Host} (down up : string) (c : PlayerControls) :
  toLowerCase up = toLowerCase down ->
  let c' := keyup up (keydown down c) in
  keysPressed c' = keysPressed c ∖ {[ toLowerCase down ]}
  /\ has (toLowerCase down) (keysPressed c') = false
  /\ (forall k, k <> toLowerCase down -> has k (keysPressed c') = has k (keysPressed c)).
Proof.
  intros E c'.
  assert (K : keysPressed c' = keysPressed c ∖ {[ toLowerCase down ]}).
  { subst c'. unfold keyup, keydown. rewrite E.
    destruct (_ && _); simpl; set_solver. }
  split; [exact K|]. rewrite K. unfold has. split.
  - apply bool_decide_eq_false_2. set_solver.
  - intros k N. apply bool_decide_ext. set_solver.
Qed.

Section Keys.
Context `{Host}.

Lemma movementOf_keys (c d : PlayerControls) :
  isMobile c = false -> isMobile d = false -> camera d = camera c ->
  keyDirection (keysPressed d) = keyDirection (keysPressed c) ->
  movementOf d = movementOf c.
Proof.
  intros Mc Md Ec Ek. unfold movementOf, moveDirection.
  now rewrite Mc, Md, Ec, Ek.
Qed.

(** X12: of two opposite keys the forward one and the left one win.  On
    desktop, while W or the up arrow is held, S or the down arrow going
    down leaves the movement of the frame as it is; while A or the left
    arrow is held, so does D or the right arrow. *)
Theorem opposite_key_is_ignored (c : PlayerControls) :
  isMobile c = false ->
  (has "w" (keysPressed c) || has "arrowup" (keysPressed c) = true ->
     movementOf (keydown "s" c) = movementOf c
     /\ movementOf (keydown "arrowdown" c) = movementOf c)
  /\ (has "a" (keysPressed c) || has "arrowleft" (keysPressed c) = true ->
     movementOf (keydown "d" c) = movementOf c
     /\ movementOf (keydown "arrowright" c) = movementOf c).
Proof.
  intros M.
  assert (Step : forall k, toLowerCase k = k -> k <> " " ->
    keyDirection ({[ k ]} ∪ keysPressed c) = keyDirection (keysPressed c) ->
    movementOf (keydown k c) = movementOf c).
  { intros k L N E. unfold keydown. rewrite (bool_decide_eq_false_2 _ N). simpl.
    apply movementOf_keys; simpl; try assumption; try reflexivity.
    now rewrite L. }
  split; intros F; split; apply Step; try reflexivity; try discriminate;
    unfold keyDirection;
    rewrite ?(has_union_other "w"), ?(has_union_other "arrowup"),
      ?(has_union_other "s"), ?(has_union_other "arrowdown"),
      ?(has_union_other "a"), ?(has_union_other "arrowleft"),
      ?(has_union_other "d"), ?(has_union_other "arrowright") by discriminate;
    rewrite F; reflexivity.
Qed.

(** X13: the force of the joystick is capped at [1]: a force above [1]
    gives the values that force [1] gives. *)
Theorem joystick_force_capped (force radian : float) (c : PlayerControls) :
  (1 <? force) = true ->
  joystick_move force radian c = joystick_move 1 radian c.
Proof.
  intros G. unfold joystick_move.
  assert (E : JS.Math_min force 1 = 1).
  { unfold JS.Math_min. destruct (ltb_not_nan _ _ G) as [_ ->].
    rewrite (ltb_asym _ _ G), G. reflexivity. }
  rewrite E. reflexivity.
Qed.

End Keys.

(** ** The avatars after a callback *)

Lemma redrawName_shows (name : string) (t : NameTag) :
  (forall n, currentName t = Some n -> drawn t = n) ->
  redrawName name t
  = {| drawn := name; currentName := Some name; tag_quaternion := tag_quaternion t |}.
Proof.
  intros C. unfold redrawName. destruct (currentName t) as [n|] eqn:E; [|reflexivity].
  destruct (bool_decide (n = "")) eqn:E1; [reflexivity|]. simpl.
  destruct (bool_decide (n ≠ name)) eqn:E2; [reflexivity|].
  apply bool_decide_eq_false_1 in E2. apply dec_stable in E2. subst n.
  destruct t as [d cn q]. simpl in *. subst cn. now rewrite (C name eq_refl).
Qed.

Lemma applyPresence_shows (camq : Quaternion.t) (sp : SafePresence) (obj : Avatar) :
  (exists t, nameTag obj = Some t /\ forall n, currentName t = Some n -> drawn t = n) ->
  tagShows (safe_name sp) camq (applyPresence false camq sp obj).
Proof.
  intros (t & E & C). unfold tagShows, applyPresence. simpl. rewrite E. simpl.
  now rewrite (redrawName_shows _ t C).
Qed.

Section Lifecycle2.
Variables (self : string) (camq : Quaternion.t) (B : string).

Local Abbreviation entry st := (playerObjects st !! B).
Local Abbreviation adds st := (count_op (SceneAdd B) (sceneOps st)).
Local Abbreviation removes st := (count_op (SceneRemove B) (sceneOps st)).

(** The avatar [updatePlayerObject] leaves for a record: the record applied
    to the avatar there was, or to a new one. *)
Local Abbreviation applied p old :=
  (applyPresence false camq (safePresence p)
     (default (newAvatar (safePresence p)) old)).

Lemma updateStep_entry (st : Players) (p : Presence.t) :
  B <> self -> B <> "" ->
  entry (updateStep self camq st (B, p)) = Some (applied p (entry st)).
Proof.
  intros Hs He. simpl. rewrite bool_decide_eq_true_2 by done.
  unfold updatePlayerObject.
  rewrite (bool_decide_eq_false_2 _ He), (bool_decide_eq_false_2 _ Hs).
  destruct (playerObjects st !! B); simpl; now rewrite lookup_insert_eq.
Qed.

Lemma updates_entry (l : list (string * Presence.t)) (st : Players) (p : Presence.t) :
  B <> self -> B <> "" -> NoDup l.*1 -> (B, p) ∈ l ->
  entry (foldl (updateStep self camq) st l) = Some (applied p (entry st)).
Proof.
  intros Hs He N I. apply list_elem_of_split in I as (l1 & l2 & ->).
  rewrite fmap_app, fmap_cons in N. simpl in N.
  apply NoDup_app in N as (_ & N1 & N2). apply NoDup_cons in N2 as [N2 _].
  assert (N1' : B ∉ l1.*1) by (intros I; apply (N1 B I); left).
  rewrite foldl_app. cbn [foldl].
  destruct (updates_absent self camq B l2
              (updateStep self camq (foldl (updateStep self camq) st l1) (B, p)) N2)
    as (-> & _).
  rewrite updateStep_entry by assumption.
  now destruct (updates_absent self camq B l1 st N1') as (-> & _).
Qed.

Lemma onPresence_entry (snapshot : gmap string Presence.t) (st : Players)
    (p : Presence.t) :
  B <> self -> B <> "" -> snapshot !! B = Some p ->
  entry (onPresence self camq snapshot st) = Some (applied p (entry st)).
Proof.
  intros Hs He G. unfold onPresence.
  destruct (removes_kept self B snapshot (map_to_list
              (playerObjects (foldl (updateStep self camq) st (map_to_list snapshot))))
              (foldl (updateStep self camq) st (map_to_list snapshot)))
    as (-> & _); [right; rewrite G; eauto|].
  apply updates_entry; try assumption.
  - apply NoDup_fst_map_to_list.
  - now apply elem_of_map_to_list.
Qed.

Lemma updates_inert_ops (l : list (string * Presence.t)) (st : Players) :
  B = self \/ B = "" ->
  let st' := foldl (updateStep self camq) st l in
  adds st' = adds st /\ removes st' = removes st.
Proof.
  intros I. revert st. induction l as [|[k p] l IH]; intros st; [done|].
  cbn [foldl]. destruct (IH (updateStep self camq st (k, p))) as (-> & ->).
  destruct (decide (k = B)) as [->|Hk].
  - simpl. destruct I as [->| ->].
    + now rewrite bool_decide_eq_false_2 by auto.
    + destruct (bool_decide ("" ≠ self)); [|done]. unfold updatePlayerObject.
      now rewrite bool_decide_eq_true_2.
  - now destruct (updateStep_other self camq B st k p Hk) as (_ & -> & ->).
Qed.

(** A callback adds and removes no group for the own id and the empty id. *)
Lemma onPresence_inert_ops (snapshot : gmap string Presence.t) (st : Players) :
  B = self \/ B = "" -> entry st = None ->
  let st' := onPresence self camq snapshot st in
  entry st' = None /\ adds st' = adds st /\ removes st' = removes st.
Proof.
  intros I N. unfold onPresence.
  destruct (updates_inert_ops (map_to_list snapshot) st I) as (A & R).
  destruct (removes_absent self B snapshot (map_to_list
              (playerObjects (foldl (updateStep self camq) st (map_to_list snapshot))))
              (foldl (updateStep self camq) st (map_to_list snapshot)))
    as (-> & -> & ->); [now rewrite updates_inert|]. auto.
Qed.

End Lifecycle2.

(** X14: after a callback every id of the snapshot other than the own one
    has an avatar whose transform is that of its record in this snapshot,
    whatever the other records are: [x] and [y] are the record's, with [0]
    and [0.5] when they are missing; [z] is the record's, and when the
    record has none it is the [z] the avatar had before the callback ([0]
    for an avatar built in it); the orientation is read from the record's
    array as it is. *)
Theorem callback_applies_record (self : string) (camq : Quaternion.t) (B : string)
    (snapshot : gmap string Presence.t) (st : Players) (p : Presence.t) :
  B <> self -> B <> "" -> snapshot !! B = Some p ->
  exists obj,
    playerObjects (onPresence self camq snapshot st) !! B = Some obj
    /\ av_position obj
       = (Some (default 0 (Presence.x p)), Some (default 0.5 (Presence.y p)),
          match Presence.z p with
          | Some z => Some z
          | None =>
              match playerObjects st !! B with
              | Some old => (av_position old).2
              | None => Some 0
              end
          end)
    /\ av_quaternion obj = fromArray (default [0; 0; 0; 1] (Presence.quaternion p)).
Proof.
  intros Hs He G.
  exists (applyPresence false camq (safePresence p)
            (default (newAvatar (safePresence p)) (playerObjects st !! B))).
  split; [apply onPresence_entry; assumption|].
  split; [|reflexivity].
  unfold applyPresence, positionSet, safePresence. simpl.
  destruct (Presence.z p); [reflexivity|].
  now destruct (playerObjects st !! B).
Qed.

Lemma tagsConsistent_onPresence (self : string) (camq : Quaternion.t)
    (snapshot : gmap string Presence.t) (st : Players) :
  tagsConsistent self st -> tagsConsistent self (onPresence self camq snapshot st).
Proof.
  intros (Ns & Ne & T). split; [now apply onPresence_inert; auto|].
  split; [now apply onPresence_inert; auto|].
  intros k obj L.
  destruct (decide (k = self)) as [->|Hs].
  { rewrite (onPresence_inert self camq self snapshot st) in L by auto. discriminate. }
  destruct (decide (k = "")) as [->|He].
  { rewrite (onPresence_inert self camq "" snapshot st) in L by auto. discriminate. }
  destruct (snapshot !! k) as [p|] eqn:G.
  - rewrite (onPresence_entry self camq k snapshot st p Hs He G) in L.
    injection L as <-.
    assert (S : tagShows (safe_name (safePresence p)) camq
                  (applyPresence false camq (safePresence p)
                     (default (newAvatar (safePresence p)) (playerObjects st !! k)))).
    { apply applyPresence_shows. destruct (playerObjects st !! k) as [old|] eqn:O; simpl.
      - exact (T k old O).
      - eexists. split; [reflexivity|]. discriminate. }
    unfold tagShows in S. rewrite S. eexists. split; [reflexivity|].
    simpl. now intros n [= <-].
  - destruct (onPresence_absent self camq k snapshot st Hs G) as (N & _).
    rewrite N in L. discriminate.
Qed.

Lemma tagsConsistent_onPresences (self : string) (camq : Quaternion.t)
    (l : list (gmap string Presence.t)) (st : Players) :
  tagsConsistent self st -> tagsConsistent self (onPresences self camq l st).
Proof.
  revert st. induction l as [|s l IH]; intros st T; [exact T|].
  rewrite onPresences_cons. now apply IH, tagsConsistent_onPresence.
Qed.

(** X15: in every run of the callback from the empty state, after each
    callback the name tag of every remote avatar shows the name of its
    record in the latest snapshot (['Unknown'] when the record has none),
    records that name and faces along the camera: a changed name is drawn
    at once, and no tag keeps an older one. *)
Theorem name_tag_shows_latest_name (self : string) (camq : Quaternion.t)
    (l : list (gmap string Presence.t)) (snapshot : gmap string Presence.t)
    (B : string) (p : Presence.t) :
  B <> self -> B <> "" -> snapshot !! B = Some p ->
  exists obj,
    playerObjects (onPresences self camq (l ++ [snapshot]) noPlayers) !! B = Some obj
    /\ tagShows (default "Unknown" (Presence.name p)) camq obj.
Proof.
  intros Hs He G. rewrite onPresences_snoc.
  assert (T : tagsConsistent self (onPresences self camq l noPlayers)).
  { apply tagsConsistent_onPresences. split; [done|]. split; [done|].
    intros k obj L. unfold noPlayers in L. simpl in L.
    rewrite lookup_empty in L. discriminate. }
  destruct T as (_ & _ & T).
  exists (applyPresence false camq (safePresence p)
            (default (newAvatar (safePresence p))
               (playerObjects (onPresences self camq l noPlayers) !! B))).
  split; [apply onPresence_entry; assumption|].
  apply (applyPresence_shows camq (safePresence p)).
  destruct (playerObjects (onPresences self camq l noPlayers) !! B) as [old|] eqn:O; simpl.
  - exact (T B old O).
  - eexists. split; [reflexivity|]. discriminate.
Qed.

(** X16: in every run of the callback from the empty state and for every
    id, the groups added to the scene for the id are one more than those
    removed while the id has an avatar, and as many otherwise: the scene
    holds exactly one group per avatar of [playerObjects], none is leaked
    and none is doubled, however often an id comes and goes. *)
Theorem scene_groups_match_players (self : string) (camq : Quaternion.t)
    (l : list (gmap string Presence.t)) (B : string) :
  let st := onPresences self camq l noPlayers in
  count_op (SceneAdd B) (sceneOps st)
  = (count_op (SceneRemove B) (sceneOps st)
     + match playerObjects st !! B with Some _ => 1 | None => 0 end)%nat.
Proof.
  induction l as [|s l IH] using rev_ind; [reflexivity|].
  cbv zeta in *. rewrite onPresences_snoc.
  destruct (decide (B = self \/ B = "")) as [I|I].
  - destruct (onPresence_inert_ops self camq B s (onPresences self camq l noPlayers) I)
      as (-> & -> & ->); [now apply run_inert|].
    rewrite (run_inert self camq B l noPlayers I eq_refl) in IH. exact IH.
  - assert (Hs : B <> self) by tauto. assert (He : B <> "") by tauto.
    destruct (s !! B) as [p|] eqn:G.
    + destruct (onPresence_present self camq B s (onPresences self camq l noPlayers)
                  Hs He) as ([obj ->] & -> & ->); [rewrite G; eauto|].
      rewrite IH. destruct (playerObjects _ !! B); lia.
    + destruct (onPresence_absent self camq B s (onPresences self camq l noPlayers)
                  Hs G) as (-> & -> & ->).
      rewrite IH. destruct (playerObjects _ !! B); lia.
Qed.

(** X17: the own player is never rendered: in every run of the callback
    from the empty state, also when the snapshots contain the own id, it
    has no avatar and no group was ever added to the scene for it. *)
Theorem own_player_never_rendered (self : string) (camq : Quaternion.t)
    (l : list (gmap string Presence.t)) :
  let st := onPresences self camq l noPlayers in
  playerObjects st !! self = None
  /\ count_op (SceneAdd self) (sceneOps st) = 0%nat
  /\ count_op (SceneRemove self) (sceneOps st) = 0%nat.
Proof.
  induction l as [|s l IH] using rev_ind; [repeat split|].
  cbv zeta in *. rewrite onPresences_snoc. destruct IH as (N & A & R).
  destruct (onPresence_inert_ops self camq self s (onPresences self camq l noPlayers))
    as (-> & -> & ->); auto.
Qed.

(** ** The further properties at work *)

Lemma frame_keeps_canJump_witness :
  let c := desktopAt 0 3 0 true [] in
  canJump c = true /\ canJump (@processMovement (exampleHost 0.5) c) = true.
Proof.
  intros c. split; [reflexivity|].
  exact (@frame_keeps_canJump (exampleHost 0.5) c eq_refl).
Defined.

Lemma frame_outcomes_witness :
  let c := @keydown (exampleHost 0.5) "w" (desktopAt 0 3 0 true []) in
  let c' := @processMovement (exampleHost 0.5) c in
  runs c = true
  /\ (Vector3.y (velocity c') = Vector3.y (velocity c) - GRAVITY
      \/ Vector3.y (velocity c') = 0).
Proof.
  intros c c'. split; [reflexivity|].
  exact (proj1 (proj2 (proj2 (@frame_outcomes (exampleHost 0.5) c eq_refl)))).
Defined.

Lemma never_below_ground_witness :
  let c := desktopAt 0 0.5 0 true [] in
  (0.5 <=? newY (@resolve (exampleHost 0.5) c)) = true
  \/ PrimFloat.is_nan (newY (@resolve (exampleHost 0.5) c)) = true.
Proof.
  intros c. exact (@never_below_ground (exampleHost 0.5) c eq_refl).
Defined.

Lemma missing_coordinate_is_pushed_witness :
  let c := set_presence Presence.empty (desktopAt 1 0.5 2 true []) in
  let c' := @processMovement (exampleHost 0.5) c in
  runs c = true /\ Presence.x (presence c) = None
  /\ Presence.x (presence c') = Some (newX (@resolve (exampleHost 0.5) c))
  /\ length (sent c') = 1%nat.
Proof.
  intros c c'.
  destruct (@missing_coordinate_is_pushed (exampleHost 0.5) c eq_refl
              (or_introl eq_refl)) as (S & X & _).
  split; [reflexivity|]. split; [reflexivity|]. split; [exact X|].
  exact (f_equal length S).
Defined.

Lemma nan_position_is_pushed_witness :
  let h := exampleHost 0.5 in
  let c := set_camera (cameraTurned (Quaternion.mk nan 0 0 1) (Vector3.mk 0 1.7 0))
             (@keydown (exampleHost 0.5) "w" (desktopAt 0 0.5 0 true [])) in
  runs c = true
  /\ PrimFloat.is_nan (newX (@resolve h c)) = true
  /\ positionChanged (@resolve h c) (presence (@processMovement h c)) = true.
Proof.
  intros h c. split; [reflexivity|]. split; [reflexivity|].
  exact (proj2 (@nan_position_is_pushed h c eq_refl (or_introl eq_refl))).
Defined.

Lemma no_input_keeps_place_witness :
  let h := exampleHost 0.5 in
  let c := @joystick_end
             (@joystick_move h 1 (JS.Math_PI / 2)
                (mobileAt 0.25 0.5 0.5 [box 1 1 0 1 2 4 true])) in
  noInput c
  /\ (newX (@resolve h c) =? 0.25) = true /\ (newZ (@resolve h c) =? 0.5) = true.
Proof.
  intros h c.
  assert (N : noInput c) by (split; reflexivity).
  destruct (@no_input_keeps_place h c N eq_refl eq_refl) as (X & Z & _).
  split; [exact N|]. split; [exact X | exact Z].
Defined.

Lemma idle_frame_changes_nothing_witness :
  let c := desktopAt 1 0.5 2 true [box 9 1 0 1 2 4 true; scenery 0 0 0] in
  @processMovement (exampleHost 0.5) c = c.
Proof.
  intros c.
  apply (@idle_frame_changes_nothing (exampleHost 0.5) c); try reflexivity.
  apply disjoint_empty_l.
Defined.

Lemma jump_arc_witness :
  let c := desktopAt 0 0.5 0 true [scenery 0 0 0] in
  blockMeshes (scene c) = []
  /\ vertical (@frames (exampleHost 0.5) 49 (@keydown (exampleHost 0.5) " " c)) = (0.5, 0, true).
Proof.
  intros c. split; [reflexivity|].
  exact (proj2 (@jump_arc (exampleHost 0.5) c eq_refl eq_refl eq_refl eq_refl)).
Defined.

Lemma scenery_is_no_obstacle_witness :
  let wall := box 1 1 0 1 2 4 true in
  let c := @keydown (exampleHost 0.5) "d" (desktopAt 0.15 0.5 0 true [scenery 0.2 0.5 0; wall]) in
  @processMovement (exampleHost 0.5) (set_scene [wall] c)
  = set_scene [wall] (@processMovement (exampleHost 0.5) c).
Proof.
  intros wall c.
  exact (@scenery_is_no_obstacle (exampleHost 0.5) c (scenery 0.2 0.5 0) [] [wall]
           eq_refl eq_refl eq_refl).
Defined.

Lemma key_release_any_case_witness :
  let c := desktopAt 0 0.5 0 true [] in
  has "w" (keysPressed (@keydown (exampleHost 0.5) "W" c)) = true
  /\ has "w" (keysPressed (@keyup (exampleHost 0.5) "w" (@keydown (exampleHost 0.5) "W" c))) = false.
Proof.
  intros c. split; [reflexivity|].
  exact (proj1 (proj2 (@key_release_any_case (exampleHost 0.5) "W" "w" c eq_refl))).
Defined.

Lemma opposite_key_is_ignored_witness :
  let h := exampleHost 0.5 in
  let c := @keydown (exampleHost 0.5) "w" (desktopAt 0 0.5 0 true []) in
  @movementOf h (@keydown (exampleHost 0.5) "s" c) = @movementOf h c
  /\ @movementOf h c = Vector3.mk 0 0 (-0.08).
Proof.
  intros h c. split; [|reflexivity].
  exact (proj1 (proj1 (@opposite_key_is_ignored h c eq_refl) eq_refl)).
Defined.

Lemma joystick_force_capped_witness :
  let h := exampleHost 0.5 in
  let c := mobileAt 0 0.5 0 [] in
  @joystick_move h 2 (JS.Math_PI / 2) c = @joystick_move h 1 (JS.Math_PI / 2) c.
Proof.
  intros h c. exact (@joystick_force_capped h 2 (JS.Math_PI / 2) c eq_refl).
Defined.

Lemma callback_applies_record_witness :
  let q := Quaternion.mk 0 0 0 1 in
  let first := Presence.mk (Some 1) (Some 0.5) (Some 2) None None None in
  let second := Presence.mk (Some 3) None None (Some [0; 1; 0; 0]) None None in
  let st := onPresence "me" q {[ "B" := first ]} noPlayers in
  exists obj,
    playerObjects (onPresence "me" q {[ "B" := second ]} st) !! "B" = Some obj
    /\ av_position obj = (Some 3, Some 0.5, Some 2)
    /\ av_quaternion obj = (Some 0, Some 1, Some 0, Some 0).
Proof.
  intros q first second st.
  refine (callback_applies_record "me" q "B" {[ "B" := second ]} st second _ _ _).
  - discriminate.
  - discriminate.
  - reflexivity.
Defined.

Lemma name_tag_shows_latest_name_witness :
  let q := Quaternion.mk 0 0 0 1 in
  let old := Presence.mk (Some 1) None (Some 2) None (Some "Bea") None in
  let new := Presence.mk (Some 1) None (Some 2) None (Some "Beatrix") None in
  exists obj,
    playerObjects (onPresences "me" q ([{[ "B" := old ]}] ++ [{[ "B" := new ]}])
                     noPlayers) !! "B" = Some obj
    /\ tagShows "Beatrix" q obj.
Proof.
  intros q old new.
  refine (name_tag_shows_latest_name "me" q [{[ "B" := old ]}] {[ "B" := new ]}
            "B" new _ _ _).
  - discriminate.
  - discriminate.
  - reflexivity.
Defined.

(** ** Turning, short orientations, open space *)

Section Turn.
Context `{Host}.

Lemma resolve_controls_change (c : PlayerControls) :
  resolve (controls_change c) = resolve c.
Proof. reflexivity. Qed.

(** X18: a turn of the camera on desktop (the [change] event) pushes the
    orientation alone and leaves the stored position as it is, so the
    frame that follows pushes nothing when the position it resolves is the
    stored one: standing still and looking around costs one update per
    turn, none per frame. *)
Theorem turn_pushes_orientation_only (c : PlayerControls) :
  positionChanged (resolve c) (presence c) = false ->
  let c' := controls_change c in
  sent (processMovement c')
  = sent c ++ [Presence.mk None None None
                 (Some (Quaternion.toArray (cam_quaternion (camera c)))) None None]
  /\ Presence.x (presence c') = Presence.x (presence c)
  /\ Presence.y (presence c') = Presence.y (presence c)
  /\ Presence.z (presence c') = Presence.z (presence c).
Proof.
  intros P c'. split; [|repeat split].
  assert (P' : positionChanged (resolve c') (presence c') = false) by exact P.
  unfold processMovement.
  destruct (negb (isMobile c') && negb (pointerLocked c')); [reflexivity|].
  now rewrite moveAndBroadcast_sent, P'.
Qed.

(** X19: while the candidate is outside the widened footprint of every
    block of the scene, the blocks do nothing: the frame resolves to the
    candidate with the ground check applied. *)
Theorem free_motion (c : PlayerControls) :
  Forall (fun b => overFootprint b (candidate c) = false) (blockMeshes (scene c)) ->
  resolve c = groundCheck (candidate c).
Proof.
  intros F. unfold resolve, collideAll. f_equal.
  induction F as [|b blocks O F IH]; [reflexivity|].
  simpl. unfold collideBlock at 2, standingTest, horizontalTest. rewrite O.
  rewrite andb_false_r. simpl. exact IH.
Qed.

End Turn.

(** X20: the orientation array of a record is not checked for its length:
    a record whose array has fewer than four numbers leaves the last
    component of the avatar's orientation undefined, and the transform of
    the avatar is not finite. *)
Theorem short_orientation_is_applied (self : string) (camq : Quaternion.t)
    (B : string) (snapshot : gmap string Presence.t) (st : Players)
    (p : Presence.t) (q : list float) :
  B <> self -> B <> "" -> snapshot !! B = Some p ->
  Presence.quaternion p = Some q -> (length q < 4)%nat ->
  exists obj,
    playerObjects (onPresence self camq snapshot st) !! B = Some obj
    /\ av_quaternion obj = (q !! 0%nat, q !! 1%nat, q !! 2%nat, None)
    /\ finiteTransform obj = false.
Proof.
  intros Hs He G Q L.
  exists (applyPresence false camq (safePresence p)
            (default (newAvatar (safePresence p)) (playerObjects st !! B))).
  split; [apply onPresence_entry; assumption|].
  assert (E : q !! 3%nat = None) by (apply lookup_ge_None; lia).
  unfold finiteTransform, applyPresence, safePresence, fromArray. simpl.
  rewrite Q. simpl. rewrite E. split; [reflexivity|].
  simpl. now rewrite !andb_false_r.
Qed.

Lemma turn_pushes_orientation_only_witness :
  let c := desktopAt 1 0.5 2 true [] in
  let c' := @processMovement (exampleHost 0.5) (controls_change c) in
  sent c' = [Presence.mk None None None (Some [0; 0; 0; 1]) None None].
Proof.
  intros c c'.
  refine (proj1 (@turn_pushes_orientation_only (exampleHost 0.5) c _)).
  vm_compute. reflexivity.
Defined.

Lemma free_motion_witness :
  let h := exampleHost 0.5 in
  let c := @keydown (exampleHost 0.5) "w" (desktopAt 0 0.5 0 true [box 9 1 0 1 2 4 true]) in
  @resolve h c = groundCheck (@candidate h c).
Proof.
  intros h c. apply (@free_motion h c). repeat constructor.
Defined.

Lemma short_orientation_is_applied_witness :
  let p := Presence.mk (Some 1) (Some 0.5) (Some 2) (Some [0; 1]) None None in
  let st := onPresence "me" (Quaternion.mk 0 0 0 1) {[ "B" := p ]} noPlayers in
  exists obj,
    playerObjects st !! "B" = Some obj
    /\ av_quaternion obj = (Some 0, Some 1, None, None)
    /\ finiteTransform obj = false.
Proof.
  intros p st.
  refine (short_orientation_is_applied "me" (Quaternion.mk 0 0 0 1) "B"
            {[ "B" := p ]} noPlayers p [0; 1] _ _ _ _ _).
  - discriminate.
  - discriminate.
  - reflexivity.
  - reflexivity.
  - simpl. lia.
Defined.
